(** * Tracker bookkeeping of [utilities/experiment_utils.py]

    A shallow embedding of the [Tracker] class (epoch / update counters, the
    buffer of losses, the fan-out to the [Logger] sinks) and of the tracker
    part of the [update] / [evaluate] loops, with the properties of its three
    operations [track_loss], [summarise] and [compute_metrics]. *)

From Stdlib Require Import ZArith List String Bool Lia QArith.
From Stdlib Require Import SpecFloat Permutation.
Import ListNotations.
Local Open Scope string_scope.
Local Open Scope list_scope.
Local Open Scope Z_scope.

(** ** Exceptions and the method monad *)

(** The exceptions the module can raise: the [assert] of [compute_metrics],
    the [TypeError] of a [str + object] concatenation in [_pre], whatever
    a user supplied metric raises, and the [RuntimeError] that a generator
    ends with when a [StopIteration] is raised inside it. *)
Inductive exn : Type :=
| AssertionError (msg : string)
| TypeError
| Exception (code : nat)
| RuntimeError (msg : string).

Inductive res (A : Type) : Type :=
| Ok (a : A)
| Raise (e : exn).
Arguments Ok {A} a.
Arguments Raise {A} e.

(** A method is a function on the store; an exception leaves the store as the
    method had made it up to the [raise] (nothing is rolled back). *)
Definition M (S A : Type) : Type := S -> res A * S.

Definition ret {S A} (a : A) : M S A := fun s => (Ok a, s).

Definition bind {S A B} (m : M S A) (k : A -> M S B) : M S B :=
  fun s => match m s with
           | (Ok a, s') => k a s'
           | (Raise e, s') => (Raise e, s')
           end.

Definition raise {S A} (e : exn) : M S A := fun s => (Raise e, s).

Declare Scope py_scope.
Delimit Scope py_scope with py.
Notation "x <- m ;; k" := (bind m (fun x => k))
  (at level 100, m at next level, right associativity) : py_scope.
Notation "m ;; k" := (bind m (fun _ => k))
  (at level 100, right associativity) : py_scope.
Local Open Scope py_scope.

(** [for a in l: body(a)]: the first exception ends the loop. *)
Fixpoint for_each {S A} (l : list A) (body : A -> M S unit) : M S unit :=
  match l with
  | [] => ret tt
  | a :: l' => body a ;; for_each l' body
  end.

(** [assert cond, msg] *)
Definition assert {S} (cond : bool) (msg : string) : M S unit :=
  if cond then ret tt else raise (AssertionError msg).

(** ** The floating point library

    [np.mean] belongs to NumPy, not to this module: the development is
    parametric in the type of Python floats and in [np.mean], of which it only
    uses that the mean of an empty list is [nan] (NumPy warns and returns it). *)
Class NumPy : Type := {
  float : Type;
  nan : float;
  np_mean : list float -> float;
  np_mean_nil : np_mean [] = nan
}.

(** Truth value of a Python [str] and of an optional list ([None] and [[]]
    are false). *)
Definition truthy_str (s : string) : bool :=
  match s with EmptyString => false | String _ _ => true end.

Definition truthy {A} (o : option (list A)) : bool :=
  match o with
  | None | Some [] => false
  | Some (_ :: _) => true
  end.

(** The list held by an optional list that is true. *)
Definition the {A} (o : option (list A)) : list A :=
  match o with Some l => l | None => [] end.

Section TrackerModel.
Context `{NP : NumPy}.

(** ** Data model *)

(** A [Logger] object, by identity: the same object may be configured twice. *)
Definition logger : Type := nat.

(** A metric is a callable on (ground truth, predictions); it has an identity
    and may raise, and it has no access to the tracker. *)
Record metric : Type := {
  metric_id : nat;
  metric_call : list float -> list float -> res float
}.

(** What reaches [log_scalar] as its tag: a [str], or, when the metrics stand
    in for their names, the metric object. *)
Inductive name : Type :=
| Str (s : string)
| Obj (m : metric).

(** One call [logger.log_scalar(tag, value, step)]. *)
Record event : Type := {
  ev_logger : logger;
  ev_tag : name;
  ev_value : float;
  ev_step : Z
}.

Record Tracker : Type := {
  epoch : Z;
  update : Z;
  losses : list float;
  loggers : list logger;
  log_every : Z;
  metrics : option (list metric);
  metrics_names : option (list string);
  pre_tag : string
}.

(** The store: the tracker object and the calls received by the sinks, oldest
    first. *)
Record world : Type := { self : Tracker; sinks : list event }.

Definition get {A} (field : Tracker -> A) : M world A :=
  fun w => (Ok (field (self w)), w).

Definition set (f : Tracker -> Tracker) : M world unit :=
  fun w => (Ok tt, {| self := f (self w); sinks := sinks w |}).

Definition set_epoch (e : Z) (t : Tracker) : Tracker :=
  {| epoch := e; update := update t; losses := losses t; loggers := loggers t;
     log_every := log_every t; metrics := metrics t;
     metrics_names := metrics_names t; pre_tag := pre_tag t |}.

Definition set_update (u : Z) (t : Tracker) : Tracker :=
  {| epoch := epoch t; update := u; losses := losses t; loggers := loggers t;
     log_every := log_every t; metrics := metrics t;
     metrics_names := metrics_names t; pre_tag := pre_tag t |}.

Definition set_losses (l : list float) (t : Tracker) : Tracker :=
  {| epoch := epoch t; update := update t; losses := l; loggers := loggers t;
     log_every := log_every t; metrics := metrics t;
     metrics_names := metrics_names t; pre_tag := pre_tag t |}.

(** [Logger.log_scalar]: the sink records the call and returns. What the
    tracker does after a sink has raised is outside the model. *)
Definition log_scalar (lg : logger) (tag : name) (value : float) (step : Z)
  : M world unit :=
  fun w => (Ok tt, {| self := self w;
                      sinks := sinks w ++ [ {| ev_logger := lg; ev_tag := tag;
                                               ev_value := value; ev_step := step |} ] |}).

(** ** The class [Tracker] *)

(** [Tracker.__init__]: the loggers are the positional arguments, the rest
    are the keyword arguments. *)
Definition __init__ (lgs : list logger) (every : Z) (ms : option (list metric))
    (nms : option (list string)) (pre : string) : Tracker :=
  {| epoch := 0; update := 0; losses := []; loggers := lgs; log_every := every;
     metrics := ms; metrics_names := nms; pre_tag := pre |}.

(** [return self.pre_tag + '.' + string if self.pre_tag else string] *)
Definition _pre (string : name) : M world name :=
  pre <- get pre_tag ;;
  if truthy_str pre then
    match string with
    | Str s => ret (Str (pre ++ "." ++ s)%string)
    | Obj _ => raise TypeError
    end
  else ret string.

Definition track_loss (loss : float) : M world unit :=
  e <- get epoch ;;
  (if 0 <? e then u <- get update ;; set (set_update (u + 1)) else ret tt) ;;
  every <- get log_every ;;
  u <- get update ;;
  (if (0 <? every) && (u mod every =? 0) && negb (u =? 0) then
     lgs <- get loggers ;;
     for_each lgs (fun lg =>
       tag <- _pre (Str "loss") ;;
       step <- get update ;;
       log_scalar lg tag loss step)
   else ret tt) ;;
  ls <- get losses ;;
  set (set_losses (ls ++ [loss])).

Definition summarise : M world float :=
  ls <- get losses ;;
  let avg_loss := np_mean ls in
  set (set_losses []) ;;
  lgs <- get loggers ;;
  for_each lgs (fun lg =>
    tag <- _pre (Str "avg_loss") ;;
    step <- get epoch ;;
    log_scalar lg tag avg_loss step) ;;
  e <- get epoch ;;
  set (set_epoch (e + 1)) ;;
  ret avg_loss.

(** [names = self.metrics_names if self.metrics_names else self.metrics] *)
Definition names_of (t : Tracker) : list name :=
  if truthy (metrics_names t)
  then map Str (the (metrics_names t))
  else map Obj (the (metrics t)).

Definition length_msg : string :=
  "Ground truth and predictions are not the same length!".

Definition compute_metrics (y_array pred_array : list float) : M world unit :=
  ms <- get metrics ;;
  if negb (truthy ms) then ret tt else
  assert (List.length y_array =? List.length pred_array)%nat length_msg ;;
  names <- get names_of ;;
  lgs <- get loggers ;;
  for_each lgs (fun lg =>
    for_each (combine (the ms) names) (fun '(m, metric_name) =>
      tag <- _pre metric_name ;;
      value <- (fun w => (metric_call m y_array pred_array, w)) ;;
      step <- get epoch ;;
      log_scalar lg tag value step)).

(** The tracker's part of the loops of [update] and [evaluate]: one
    [track_loss] per batch, in order. *)
Definition track_losses (batch_losses : list float) : M world unit :=
  for_each batch_losses track_loss.

(** A call of one of the three operations, and the store it leaves. *)
Inductive op : Type :=
| TrackLoss (loss : float)
| Summarise
| ComputeMetrics (y_array pred_array : list float).

Definition step (o : op) (w : world) : world :=
  match o with
  | TrackLoss loss => snd (track_loss loss w)
  | Summarise => snd (summarise w)
  | ComputeMetrics y_array pred_array => snd (compute_metrics y_array pred_array w)
  end.

(** The stores a tracker can be in: built by [__init__], then driven through
    its operations. *)
Inductive reachable : world -> Prop :=
| reach_init lgs every ms nms pre s :
    reachable {| self := __init__ lgs every ms nms pre; sinks := s |}
| reach_step o w : reachable w -> reachable (step o w).

(** ** Reading the sinks *)

Definition mk_event (lg : logger) (tag : name) (value : float) (step : Z) : event :=
  {| ev_logger := lg; ev_tag := tag; ev_value := value; ev_step := step |}.

(** The tag of the spec: [pre_tag + "." + name], or [name] alone under an
    empty [pre_tag]. *)
Definition prefixed (pre s : string) : string :=
  if truthy_str pre then (pre ++ "." ++ s)%string else s.

(** [tag] is the tag of the spec for the name [n] under the prefix [pre]. *)
Definition tag_ok (pre : string) (n tag : name) : Prop :=
  (pre <> "" -> exists s, n = Str s /\ tag = Str (pre ++ "." ++ s)%string)
  /\ (pre = "" -> tag = n).

(** One scalar sent to each of the loggers, in their order. *)
Definition fan_out (lgs : list logger) (tag : name) (value : float) (step : Z)
  : list event :=
  map (fun lg => mk_event lg tag value step) lgs.

(** What one logger receives for the scalars [tvs] at the current epoch. *)
Definition scalars_to (t : Tracker) (tvs : list (name * float)) (lg : logger)
  : list event :=
  map (fun tv => mk_event lg (fst tv) (snd tv) (epoch t)) tvs.

(** The value of [update] after the first statement of [track_loss]. *)
Definition next_update (t : Tracker) : Z :=
  if 0 <? epoch t then update t + 1 else update t.

(** The test of the second statement, on the value [u] of [update]. *)
Definition cadence (t : Tracker) (u : Z) : bool :=
  (0 <? log_every t) && (u mod log_every t =? 0) && negb (u =? 0).

(** [u] is a positive multiple of [every]. *)
Definition positive_multiple (u every : Z) : Prop :=
  exists k, 0 < k /\ u = k * every.

(** The names an operation logs under, before the prefix. *)
Definition op_names (t : Tracker) (o : op) : list name :=
  match o with
  | TrackLoss _ => [Str "loss"]
  | Summarise => [Str "avg_loss"]
  | ComputeMetrics _ _ => names_of t
  end.

(** The pair (metric, name) yields the scalar (tag, value): [_pre] forms the
    tag and the metric returns the value. *)
Definition yields (y pred : list float) (t : Tracker)
    (mn : metric * name) (tv : name * float) : Prop :=
  (forall s, _pre (snd mn) {| self := t; sinks := s |}
             = (Ok (fst tv), {| self := t; sinks := s |}))
  /\ metric_call (fst mn) y pred = Ok (snd tv).

End TrackerModel.

(** ** Exact arithmetic as the floating point library

    An instance to run the bookkeeping on: rationals for the finite floats,
    with the mean computed exactly, and [NaN]. It is [np.mean] on the empty
    list; on other lists doubles round and overflow where it does not (see
    [Double] for them). *)
Module Exact.

Inductive xfloat : Type :=
| Num (q : Q)
| NaN.

Fixpoint total (l : list xfloat) : option Q :=
  match l with
  | [] => Some 0%Q
  | Num q :: l' => option_map (Qplus q) (total l')
  | NaN :: _ => None
  end.

Definition mean (l : list xfloat) : xfloat :=
  match l, total l with
  | _ :: _, Some sum => Num (Qred (sum / inject_Z (Z.of_nat (List.length l))))
  | _, _ => NaN
  end.

#[export] Instance numpy : NumPy :=
  {| float := xfloat; nan := NaN; np_mean := mean; np_mean_nil := eq_refl |}.

Definition xfloat_eqb (a b : xfloat) : bool :=
  match a, b with
  | Num p, Num q => Qeq_bool p q
  | _, _ => false
  end.

Fixpoint all_eqb (y pred : list xfloat) : bool :=
  match y, pred with
  | [], [] => true
  | a :: y', b :: pred' => xfloat_eqb a b && all_eqb y' pred'
  | _, _ => false
  end.

(** [lambda y, p: 1.0 if y == p else 0.0] *)
Definition same : metric :=
  {| metric_id := 0;
     metric_call := fun y p => Ok (if all_eqb y p then Num 1 else Num 0) |}.

(** A metric that raises on every input. *)
Definition broken : metric :=
  {| metric_id := 1; metric_call := fun _ _ => Raise (Exception 0) |}.

(** A tracker in the middle of a run, with two loggers. *)
Definition running : Tracker :=
  {| epoch := 1; update := 0; losses := [Num 1; Num 2; Num 6]; loggers := [0; 1]%nat;
     log_every := 2; metrics := Some [same; broken];
     metrics_names := Some ["same"]; pre_tag := "train" |}.

(** A fresh tracker with two loggers and no metric. *)
Definition idle : Tracker := __init__ [0; 1]%nat 1 None None "".

(** A tracker whose [update] is 4 while its [epoch] is 0. *)
Definition stale : Tracker := set_update 4 (__init__ [0]%nat 2 None None "").

(** A fresh tracker with the metric [same] and no names for it. *)
Definition unnamed (pre : string) : Tracker :=
  __init__ [0]%nat 1 (Some [same]) None pre.

(** A fresh tracker with the metric [same] and an empty list of names. *)
Definition empty_names : Tracker :=
  __init__ [0]%nat 1 (Some [same]) (Some []) "".

End Exact.

(** ** IEEE doubles as the floating point library

    Python's [float] and NumPy's [float64] are IEEE 754 binary64 numbers.
    [np.mean] of a list of them is [add.reduce] over the list divided by the
    number of its items: every item is added once, in binary64 arithmetic, in
    the grouping that NumPy's summation chooses (which may start from a zero),
    and the sum is divided by the count. *)
Module Double.

Definition double : Type := spec_float.

Definition add : double -> double -> double := SFadd 53 1024.



(** The number that a finite double stands for. *)
Definition value (x : double) : option Q :=
  match x with
  | S754_zero _ => Some 0%Q
  | S754_finite s m e =>
      Some ((if s then - inject_Z (Zpos m) else inject_Z (Zpos m)) * Qpower 2 e)%Q
  | S754_infinity _ | S754_nan => None
  end.


(** A way of adding up some doubles. *)
Inductive summation : Type :=
| Term (x : double)
| Zero (negative : bool)
| Plus (a b : summation).

Fixpoint sum (sm : summation) : double :=
  match sm with
  | Term x => x
  | Zero negative => S754_zero negative
  | Plus a b => add (sum a) (sum b)
  end.













End Double.

(** ** Sequences of calls *)

Section RunModel.
Context `{NP : NumPy}.

(** The store after a sequence of calls, whatever each call returned or
    raised. *)
Definition run (ops : list op) (w : world) : world :=
  fold_left (fun w' o => step o w') ops w.

Definition is_summarise (o : op) : bool :=
  match o with Summarise => true | _ => false end.

(** The losses handed to [track_loss] by a sequence of calls. *)
Definition tracked (ops : list op) : list float :=
  flat_map (fun o => match o with TrackLoss loss => [loss] | _ => [] end) ops.

(** What the sinks receive while a batch of losses is tracked, [u] being the
    value of [update] before the first of them. *)
Fixpoint batch_events (t : Tracker) (u : Z) (batch_losses : list float) : list event :=
  match batch_losses with
  | [] => []
  | loss :: rest =>
      let u' := if 0 <? epoch t then u + 1 else u in
      (if cadence t u'
       then fan_out (loggers t) (Str (prefixed (pre_tag t) "loss")) loss u'
       else [])
      ++ batch_events t u' rest
  end.

(** The value of [update] after a batch of [n] losses. *)
Definition update_after (t : Tracker) (n : nat) : Z :=
  if 0 <? epoch t then update t + Z.of_nat n else update t.

End RunModel.

(** ** The loops [evaluate] and [update]

    The tensor library is PyTorch's. The loops are modelled over its
    operations as they use them: the network, its mode, the gradients and the
    optimiser form one state [torch], on which [network(x)], [network.eval()],
    [network.train()], [opt.zero_grad()], [loss.backward()] and [opt.step()]
    act; [parameters_device] is the device of the first parameter of the
    network, [None] for a network without parameters; batches are moved with
    [to]; tensors are read through [flatten] and [item]. The operations of
    the library are taken to return. *)
Class Torch `{NP : NumPy} : Type := {
  inputs : Type;
  tensor : Type;
  scalar : Type;
  device : Type;
  torch : Type;
  parameters_device : torch -> option device;
  inputs_to : inputs -> device -> inputs;
  tensor_to : tensor -> device -> tensor;
  network : inputs -> torch -> tensor * torch;
  network_eval : torch -> torch;
  network_train : torch -> torch;
  zero_grad : torch -> torch;
  backward : scalar -> torch -> torch;
  opt_step : torch -> torch;
  item : scalar -> float;
  flatten : tensor -> list float;
  Sigmoid : tensor -> tensor
}.

Notation "' pat <- m ;; k" := (bind m (fun x => match x with pat => k end))
  (at level 100, pat pattern, m at next level, right associativity) : py_scope.

(** [for a in l: body(a)] around local variables that the body rebinds or
    extends. *)
Fixpoint for_fold {S A B} (l : list A) (acc : B) (body : A -> B -> M S B) : M S B :=
  match l with
  | [] => ret acc
  | a :: l' => acc' <- body a acc ;; for_fold l' acc' body
  end.

Section LoopModel.
Context `{TH : Torch}.

(** The store of a loop: the tracker with its sinks, and the library. *)
Record session : Type := { tracker : world; framework : torch }.

(** A method of the tracker, called from a loop. *)
Definition on_tracker {A} (m : M world A) : M session A :=
  fun s => let (r, w) := m (tracker s) in
           (r, {| tracker := w; framework := framework s |}).

Definition on_torch (f : torch -> torch) : M session unit :=
  fun s => (Ok tt, {| tracker := tracker s; framework := f (framework s) |}).

Definition stop_msg : string := "generator raised StopIteration".

(** The first statement of the generator [_forward], run when the loop asks
    for the first batch: [device = next(network.parameters()).device]. On a
    network without parameters [next] raises [StopIteration], which the
    generator turns into a [RuntimeError]. *)
Definition _forward_device : M session device :=
  fun s => match parameters_device (framework s) with
           | Some dev => (Ok dev, s)
           | None => (Raise (RuntimeError stop_msg), s)
           end.

(** One turn of the loop of [_forward]: the batch is moved to the device,
    [out = network(x)], [res = metric(out, y)], and [x, y, out, res] is
    yielded. *)
Definition _forward (metric : tensor -> tensor -> scalar) (dev : device)
    (xy : inputs * tensor) : M session (inputs * tensor * tensor * scalar) :=
  fun s => let x := inputs_to (fst xy) dev in
           let y := tensor_to (snd xy) dev in
           let (out, st) := network x (framework s) in
           (Ok (x, y, out, metric out y),
            {| tracker := tracker s; framework := st |}).

(** *** The passes over the data, as functions *)

(** The batches as [_forward] yields them when nothing but the network acts
    on the library between two of them: targets, outputs and losses, and the
    state of the library after the last. *)
Fixpoint forward_pass (loss_f : tensor -> tensor -> scalar) (dev : device)
    (data : list (inputs * tensor)) (st : torch)
  : list (tensor * tensor * scalar) * torch :=
  match data with
  | [] => ([], st)
  | xy :: rest =>
      let y := tensor_to (snd xy) dev in
      let (out, st1) := network (inputs_to (fst xy) dev) st in
      let (more, st2) := forward_pass loss_f dev rest st1 in
      ((y, out, loss_f out y) :: more, st2)
  end.

(** The losses of a training pass, each followed by its [backward], [step]
    and [zero_grad], and the state of the library after the last. *)
Fixpoint train_pass (loss_f : tensor -> tensor -> scalar) (dev : device)
    (data : list (inputs * tensor)) (st : torch) : list scalar * torch :=
  match data with
  | [] => ([], st)
  | xy :: rest =>
      let (out, st1) := network (inputs_to (fst xy) dev) st in
      let loss := loss_f out (tensor_to (snd xy) dev) in
      let (more, st2) :=
        train_pass loss_f dev rest (zero_grad (opt_step (backward loss st1))) in
      (loss :: more, st2)
  end.

Definition batch_losses (outs : list (tensor * tensor * scalar)) : list float :=
  map (fun o => item (snd o)) outs.

Definition targets (outs : list (tensor * tensor * scalar)) : list float :=
  flat_map (fun o => flatten (fst (fst o))) outs.

Definition predictions (outs : list (tensor * tensor * scalar)) : list float :=
  flat_map (fun o => flatten (Sigmoid (snd (fst o)))) outs.

End LoopModel.

(** The two loops. [y_array] and [preds_array] are the local lists that
    [evaluate] extends batch after batch. *)
Module Loops.
Section Defs.
Context `{TH : Torch}.

Definition evaluate (data : list (inputs * tensor))
    (loss_f : tensor -> tensor -> scalar) : M session (float * list float) :=
  on_torch network_eval ;;
  dev <- _forward_device ;;
  arrays <- for_fold data ([], []) (fun xy '(y_array, preds_array) =>
    '(_, y, logits, loss) <- _forward loss_f dev xy ;;
    on_tracker (track_loss (item loss)) ;;
    let preds := Sigmoid logits in
    ret (y_array ++ flatten y, preds_array ++ flatten preds)) ;;
  on_tracker (compute_metrics (fst arrays) (snd arrays)) ;;
  avg <- on_tracker summarise ;;
  ret (avg, snd arrays).

Definition update (data : list (inputs * tensor))
    (loss_f : tensor -> tensor -> scalar) : M session float :=
  on_torch network_train ;;
  on_torch zero_grad ;;
  dev <- _forward_device ;;
  for_each data (fun xy =>
    '(_, _, _, loss) <- _forward loss_f dev xy ;;
    on_torch (backward loss) ;;
    on_torch opt_step ;;
    on_tracker (track_loss (item loss)) ;;
    on_torch zero_grad) ;;
  on_tracker summarise.

End Defs.
End Loops.

(** ** A library to run the loops on

    Tensors are lists of exact numbers; the state of the library says
    whether the network has a parameter, and lists the calls made on the
    library, oldest first. There is one device. The network returns its
    input and [Sigmoid] sends every number to one half. *)
Module Toy.
Import Exact.

Definition call (name : string) (st : bool * list string) : bool * list string :=
  (fst st, snd st ++ [name]).

#[export] Instance calls : Torch (NP := Exact.numpy) :=
  @Build_Torch Exact.numpy
    (list Exact.xfloat)                          (* inputs *)
    (list Exact.xfloat)                          (* tensor *)
    Exact.xfloat                                 (* scalar *)
    unit                                         (* device *)
    (bool * list string)                         (* torch *)
    (fun st => if fst st then Some tt else None) (* parameters_device *)
    (fun x _ => x)                               (* inputs_to *)
    (fun y _ => y)                               (* tensor_to *)
    (fun x st => (x, call "network" st))         (* network *)
    (call "eval")                                (* network_eval *)
    (call "train")                               (* network_train *)
    (call "zero_grad")                           (* zero_grad *)
    (fun _ => call "backward")                   (* backward *)
    (call "step")                                (* opt_step *)
    (fun loss => loss)                           (* item *)
    (fun x => x)                                 (* flatten *)
    (map (fun _ => Exact.Num (1 # 2))).          (* Sigmoid *)

(** The loss of a batch: the first output. *)
Definition first_output (out y : list Exact.xfloat) : Exact.xfloat :=
  hd Exact.NaN out.

(** Two batches, of two elements and of one. *)
Definition two_batches : list (list Exact.xfloat * list Exact.xfloat) :=
  [([Exact.Num 4; Exact.Num 2], [Exact.Num 1; Exact.Num 0]);
   ([Exact.Num 8], [Exact.Num 1])].

(** A batch with two outputs for one target. *)
Definition uneven : list (list Exact.xfloat * list Exact.xfloat) :=
  [([Exact.Num 4; Exact.Num 2], [Exact.Num 1])].

(** The calls that bring a fresh tracker to its second epoch, with one loss
    tracked in each epoch. *)
Definition two_epochs : list op :=
  [TrackLoss (Exact.Num 1); ComputeMetrics [] []; Summarise;
   TrackLoss (Exact.Num 2); Summarise; TrackLoss (Exact.Num 3)].

(** A tracker without loggers, with a metric that raises and a prefix. *)
Definition mute : Tracker := __init__ [] 1 (Some [broken]) None "train".

(** A tracker in its third epoch whose per-batch logging is switched off. *)
Definition quiet : Tracker := set_epoch 3 (__init__ [0; 1]%nat (-1) None None "").

(** A fresh tracker whose second metric raises. *)
Definition faulty : Tracker :=
  __init__ [0; 1]%nat 1 (Some [same; broken; same]) (Some ["a"; "b"; "c"]) "".

End Toy.

(** * Properties *)

Section TrackerProofs.
Context `{NP : NumPy}.

(** ** Running the monad *)

Lemma bind_ok {S A B} (m : M S A) (k : A -> M S B) s a s' :
  m s = (Ok a, s') -> bind m k s = k a s'.
Proof. unfold bind. intros ->. reflexivity. Qed.

Lemma bind_raise {S A B} (m : M S A) (k : A -> M S B) s e s' :
  m s = (Raise e, s') -> bind m k s = (Raise e, s').
Proof. unfold bind. intros ->. reflexivity. Qed.

(** Run the [get] that heads the method. *)
Ltac run_get := unfold bind at 1, get at 1; cbn [self sinks].

Lemma for_each_emit {A} (t : Tracker) (f : A -> list event)
    (body : A -> M world unit) (l : list A) :
  (forall a s, In a l ->
     body a {| self := t; sinks := s |} = (Ok tt, {| self := t; sinks := s ++ f a |})) ->
  forall s, for_each l body {| self := t; sinks := s |}
            = (Ok tt, {| self := t; sinks := s ++ flat_map f l |}).
Proof.
  induction l as [|a l IH]; intros Hbody s; simpl.
  - unfold ret. now rewrite app_nil_r.
  - rewrite (bind_ok _ _ _ tt {| self := t; sinks := s ++ f a |}).
    + rewrite IH; [now rewrite app_assoc|].
      intros b s0 Hb. apply Hbody. now right.
    + apply Hbody. now left.
Qed.

Lemma flat_map_single {A B} (f : A -> B) (l : list A) :
  flat_map (fun a => [f a]) l = map f l.
Proof. induction l; simpl; congruence. Qed.

(** The body shared by the logger loops of [track_loss] and [summarise]. *)
Lemma log_one (t : Tracker) (s : list event) lg (n : string) v (field : Tracker -> Z) :
  (tag <- _pre (Str n) ;; step <- get field ;; log_scalar lg tag v step)
    {| self := t; sinks := s |}
  = (Ok tt, {| self := t;
               sinks := s ++ [mk_event lg (Str (prefixed (pre_tag t) n)) v (field t)] |}).
Proof.
  unfold _pre, bind, get, log_scalar, prefixed, mk_event; simpl.
  destruct (pre_tag t); reflexivity.
Qed.

Lemma log_all (t : Tracker) (s : list event) (n : string) v (field : Tracker -> Z) :
  for_each (loggers t) (fun lg =>
      tag <- _pre (Str n) ;; step <- get field ;; log_scalar lg tag v step)
    {| self := t; sinks := s |}
  = (Ok tt, {| self := t;
               sinks := s ++ fan_out (loggers t) (Str (prefixed (pre_tag t) n)) v (field t) |}).
Proof.
  unfold fan_out. rewrite <- flat_map_single.
  apply for_each_emit. intros lg s0 _. apply log_one.
Qed.

(** ** [summarise] *)

Lemma summarise_run (t : Tracker) (s : list event) :
  summarise {| self := t; sinks := s |}
  = (Ok (np_mean (losses t)),
     {| self := set_epoch (epoch t + 1) (set_losses [] t);
        sinks := s ++ fan_out (loggers t) (Str (prefixed (pre_tag t) "avg_loss"))
                              (np_mean (losses t)) (epoch t) |}).
Proof.
  unfold summarise. run_get.
  unfold bind at 1, set at 1. cbn [self sinks].
  run_get.
  rewrite (bind_ok _ _ _ _ _ (log_all (set_losses [] t) s "avg_loss" _ epoch)).
  reflexivity.
Qed.

(** ** [track_loss] *)

Lemma set_update_same (t : Tracker) : set_update (update t) t = t.
Proof. now destruct t. Qed.

Lemma track_loss_run (loss : float) (t : Tracker) (s : list event) :
  track_loss loss {| self := t; sinks := s |}
  = (Ok tt,
     {| self := set_losses (losses t ++ [loss]) (set_update (next_update t) t);
        sinks := s ++ (if cadence t (next_update t)
                       then fan_out (loggers t) (Str (prefixed (pre_tag t) "loss"))
                                    loss (next_update t)
                       else []) |}).
Proof.
  unfold track_loss, next_update, cadence. run_get.
  assert (Hfirst :
    (if 0 <? epoch t then u <- get update ;; set (set_update (u + 1)) else ret tt)
      {| self := t; sinks := s |}
    = (Ok tt, {| self := set_update (if 0 <? epoch t then update t + 1 else update t) t;
                 sinks := s |})).
  { destruct (0 <? epoch t); [reflexivity|].
    unfold ret. now rewrite set_update_same. }
  rewrite (bind_ok _ _ _ _ _ Hfirst). clear Hfirst.
  set (u := if 0 <? epoch t then update t + 1 else update t).
  run_get. run_get. cbn [log_every update set_update].
  destruct ((0 <? log_every t) && (u mod log_every t =? 0) && negb (u =? 0)).
  - unfold bind at 1. run_get.
    rewrite (log_all (set_update u t) s "loss" loss update).
    reflexivity.
  - unfold bind, ret, get, set; cbn [self sinks]. now rewrite app_nil_r.
Qed.

(** ** [compute_metrics] *)

Lemma compute_metrics_noop (y pred : list float) (t : Tracker) (s : list event) :
  truthy (metrics t) = false ->
  compute_metrics y pred {| self := t; sinks := s |} = (Ok tt, {| self := t; sinks := s |}).
Proof.
  intros H. unfold compute_metrics, bind, get; cbn [self sinks].
  now rewrite H.
Qed.

Lemma compute_metrics_assert (y pred : list float) (t : Tracker) (s : list event) :
  truthy (metrics t) = true ->
  List.length y <> List.length pred ->
  compute_metrics y pred {| self := t; sinks := s |}
  = (Raise (AssertionError length_msg), {| self := t; sinks := s |}).
Proof.
  intros H Hlen. unfold compute_metrics, bind, get; cbn [self sinks].
  rewrite H. cbn [negb].
  apply Nat.eqb_neq in Hlen. now rewrite Hlen.
Qed.

(** Past the two guards, [compute_metrics] is its double loop. *)
Lemma compute_metrics_loops (y pred : list float) (t : Tracker) (s : list event) :
  truthy (metrics t) = true ->
  List.length y = List.length pred ->
  compute_metrics y pred {| self := t; sinks := s |}
  = for_each (loggers t) (fun lg =>
      for_each (combine (the (metrics t)) (names_of t)) (fun '(m, metric_name) =>
        tag <- _pre metric_name ;;
        value <- (fun w => (metric_call m y pred, w)) ;;
        step <- get epoch ;;
        log_scalar lg tag value step)) {| self := t; sinks := s |}.
Proof.
  intros H Hlen. unfold compute_metrics. run_get.
  rewrite H. cbn [negb].
  apply Nat.eqb_eq in Hlen. rewrite Hlen.
  reflexivity.
Qed.

(** A loop whose body only appends events that satisfy [P], whatever its
    outcome, only appends such events. *)
Lemma for_each_appends {A} (P : event -> Prop) (t : Tracker) (l : list A)
    (body : A -> M world unit) :
  (forall a s, In a l -> exists new,
     snd (body a {| self := t; sinks := s |}) = {| self := t; sinks := s ++ new |}
     /\ Forall P new) ->
  forall s, exists new,
    snd (for_each l body {| self := t; sinks := s |}) = {| self := t; sinks := s ++ new |}
    /\ Forall P new.
Proof.
  induction l as [|a l IH]; intros Hbody s; simpl.
  - exists []. now rewrite app_nil_r.
  - destruct (Hbody a s (or_introl eq_refl)) as (new1 & E1 & P1).
    unfold bind. destruct (body a {| self := t; sinks := s |}) as [[[]|e] w1];
      cbn [snd] in E1 |- *; subst w1.
    + destruct (IH (fun b s0 Hb => Hbody b s0 (or_intror Hb)) (s ++ new1))
        as (new2 & E2 & P2).
      exists (new1 ++ new2). rewrite E2, app_assoc. split; [reflexivity|].
      apply Forall_app; now split.
    + now exists new1.
Qed.

Lemma tag_ok_prefixed (pre n : string) : tag_ok pre (Str n) (Str (prefixed pre n)).
Proof.
  unfold tag_ok, prefixed. destruct pre; simpl; split; intros H;
    try congruence; try reflexivity.
  now exists n.
Qed.

(** Every outcome of [_pre]: the tag of the spec, or a [TypeError] and no
    change. *)
Lemma _pre_cases (n : name) (w : world) :
  (exists tag, _pre n w = (Ok tag, w) /\ tag_ok (pre_tag (self w)) n tag)
  \/ _pre n w = (Raise TypeError, w).
Proof.
  unfold _pre, bind, get, tag_ok. destruct (pre_tag (self w)) as [|c pre]; simpl.
  - left. exists n. repeat split; congruence.
  - destruct n as [s|m]; [left|right; reflexivity].
    exists (Str (String c pre ++ "." ++ s)%string). repeat split; try congruence.
    now exists s.
Qed.

(** The body of the inner loop: at most one event, with a tag of the spec. *)
Lemma metric_body_appends (y pred : list float) (t : Tracker) (s : list event)
    (lg : logger) (m : metric) (n : name) :
  exists new,
    snd ((tag <- _pre n ;;
          value <- (fun w => (metric_call m y pred, w)) ;;
          step <- get epoch ;;
          log_scalar lg tag value step) {| self := t; sinks := s |})
    = {| self := t; sinks := s ++ new |}
    /\ Forall (fun e => tag_ok (pre_tag t) n (ev_tag e)) new.
Proof.
  destruct (_pre_cases n {| self := t; sinks := s |}) as [(tag & E & Htag)|E].
  - rewrite (bind_ok _ _ _ _ _ E). unfold bind at 1.
    destruct (metric_call m y pred) as [v|e].
    + exists [mk_event lg tag v (epoch t)]. split; [reflexivity|].
      constructor; [exact Htag|constructor].
    + exists []. now rewrite app_nil_r.
  - rewrite (bind_raise _ _ _ _ _ E). exists []. now rewrite app_nil_r.
Qed.

(** Whatever its outcome, [compute_metrics] leaves the tracker as it was and
    only appends events tagged, as the spec has it, with one of the names. *)
Lemma compute_metrics_appends (y pred : list float) (t : Tracker) (s : list event) :
  exists new,
    snd (compute_metrics y pred {| self := t; sinks := s |})
    = {| self := t; sinks := s ++ new |}
    /\ Forall (fun e => exists n, In n (names_of t)
                                  /\ tag_ok (pre_tag t) n (ev_tag e)) new.
Proof.
  destruct (truthy (metrics t)) eqn:Hm.
  2:{ rewrite compute_metrics_noop by exact Hm. exists []. now rewrite app_nil_r. }
  destruct (Nat.eq_dec (List.length y) (List.length pred)) as [Hlen|Hlen].
  2:{ rewrite compute_metrics_assert by assumption. exists []. now rewrite app_nil_r. }
  rewrite compute_metrics_loops by assumption.
  apply for_each_appends. intros lg s1 _.
  apply for_each_appends. intros [m n] s2 Hin.
  destruct (metric_body_appends y pred t s2 lg m n) as (new & E & Hnew).
  exists new. split; [exact E|].
  eapply Forall_impl; [|exact Hnew].
  intros e He. exists n. split; [|exact He].
  eapply in_combine_r; exact Hin.
Qed.

(** *** Normal runs of the double loop *)

Lemma metric_loop_emit (y pred : list float) (t : Tracker) (lg : logger)
    (pairs : list (metric * name)) (tvs : list (name * float)) :
  Forall2 (yields y pred t) pairs tvs ->
  forall s,
    for_each pairs (fun '(m, metric_name) =>
        tag <- _pre metric_name ;;
        value <- (fun w => (metric_call m y pred, w)) ;;
        step <- get epoch ;;
        log_scalar lg tag value step) {| self := t; sinks := s |}
    = (Ok tt, {| self := t; sinks := s ++ scalars_to t tvs lg |}).
Proof.
  induction 1 as [|[m n] [tag v] pairs tvs [Hpre Hcall] _ IH]; intros s; simpl.
  - unfold ret. now rewrite app_nil_r.
  - cbn [fst snd] in Hpre, Hcall.
    rewrite (bind_ok _ _ _ tt
               {| self := t; sinks := s ++ [mk_event lg tag v (epoch t)] |}).
    + rewrite IH. now rewrite <- app_assoc.
    + rewrite (bind_ok _ _ _ _ _ (Hpre s)).
      unfold bind at 1. rewrite Hcall. reflexivity.
Qed.

Lemma compute_metrics_emit (y pred : list float) (t : Tracker) (s : list event)
    (tvs : list (name * float)) :
  truthy (metrics t) = true ->
  List.length y = List.length pred ->
  Forall2 (yields y pred t) (combine (the (metrics t)) (names_of t)) tvs ->
  compute_metrics y pred {| self := t; sinks := s |}
  = (Ok tt, {| self := t; sinks := s ++ flat_map (scalars_to t tvs) (loggers t) |}).
Proof.
  intros Hm Hlen Hy. rewrite compute_metrics_loops by assumption.
  apply for_each_emit. intros lg s0 _.
  now apply metric_loop_emit.
Qed.

(** With the metrics as their own names and a prefix to add, the first call
    of [_pre] raises: nothing is computed and nothing is sent. *)
Lemma compute_metrics_type_error (y pred : list float) (t : Tracker) (s : list event) :
  truthy (metrics t) = true ->
  List.length y = List.length pred ->
  truthy (metrics_names t) = false ->
  pre_tag t <> "" ->
  loggers t <> [] ->
  compute_metrics y pred {| self := t; sinks := s |}
  = (Raise TypeError, {| self := t; sinks := s |}).
Proof.
  intros Hm Hlen Hn Hpre Hlg. rewrite compute_metrics_loops by assumption.
  unfold names_of. rewrite Hn.
  destruct (metrics t) as [[|m ms]|]; try discriminate.
  destruct (loggers t) as [|lg lgs]; [congruence|].
  cbn [the map combine for_each].
  apply bind_raise. apply bind_raise. apply bind_raise.
  unfold _pre, bind, get; cbn [self sinks].
  destruct (pre_tag t); [congruence|reflexivity].
Qed.


(** ** Invariants of a run *)

Lemma step_counters (o : op) (w : world) :
  let t := self w in
  let t' := self (step o w) in
  epoch t <= epoch t' /\ update t <= update t'
  /\ (update t' = update t \/ 0 < epoch t).
Proof.
  destruct w as [t s]. destruct o as [loss| |y pred]; cbn [step self].
  - rewrite track_loss_run. cbn [snd self epoch update set_losses set_update].
    unfold next_update. destruct (Z.ltb_spec 0 (epoch t)); lia.
  - rewrite summarise_run. cbn [snd self epoch update set_losses set_epoch].
    lia.
  - destruct (compute_metrics_appends y pred t s) as (new & E & _).
    rewrite E. cbn [self]. lia.
Qed.

(** The counters never go below zero, and [update] stays at zero for as long
    as [epoch] does. *)
Lemma reachable_counters (w : world) :
  reachable w ->
  0 <= epoch (self w) /\ 0 <= update (self w)
  /\ (epoch (self w) = 0 -> update (self w) = 0).
Proof.
  induction 1 as [lgs every ms nms pre s|o w _ (He & Hu & H0)].
  - cbn. lia.
  - destruct (step_counters o w) as (He' & Hu' & H0'). cbn zeta in *.
    lia.
Qed.

(** ** The operations, claim by claim *)

(** Whatever the floating point library: [summarise] returns [np.mean] of
    the buffer, leaves the buffer empty, sends the prefixed tag "avg_loss"
    with that value to every configured logger at the step that [epoch] had
    before the call, and adds exactly 1 to [epoch]. *)
Theorem summarise_mean (t : Tracker) (s : list event) :
  losses t <> [] ->
  let avg := np_mean (losses t) in
  let tag := Str (prefixed (pre_tag t) "avg_loss") in
  let out := summarise {| self := t; sinks := s |} in
  out = (Ok avg, {| self := set_epoch (epoch t + 1) (set_losses [] t);
                    sinks := s ++ fan_out (loggers t) tag avg (epoch t) |})
  /\ losses (self (snd out)) = []
  /\ epoch (self (snd out)) = epoch t + 1
  /\ update (self (snd out)) = update t
  /\ forall lg, In lg (loggers t) ->
       In (mk_event lg tag avg (epoch t)) (sinks (snd out)).
Proof.
  intros _ avg tag out. subst out. rewrite summarise_run.
  repeat split.
  intros lg Hlg. cbn [snd sinks]. apply in_or_app. right.
  unfold fan_out. now apply (in_map (fun lg0 => mk_event lg0 tag avg (epoch t))).
Qed.

Lemma track_loss_run_pos (loss : float) (t : Tracker) (s : list event) :
  0 < epoch t ->
  track_loss loss {| self := t; sinks := s |}
  = (Ok tt,
     {| self := set_losses (losses t ++ [loss]) (set_update (update t + 1) t);
        sinks := s ++ (if cadence t (update t + 1)
                       then fan_out (loggers t) (Str (prefixed (pre_tag t) "loss"))
                                    loss (update t + 1)
                       else []) |}).
Proof.
  intros He. rewrite track_loss_run. unfold next_update.
  apply Z.ltb_lt in He. now rewrite He.
Qed.

(** On a counter that is not negative, the test of [track_loss] is the
    cadence of the spec. *)
Lemma cadence_spec (t : Tracker) (u : Z) :
  0 <= u ->
  cadence t u = true <-> 0 < log_every t /\ positive_multiple u (log_every t).
Proof.
  intros Hu. unfold cadence, positive_multiple.
  rewrite !andb_true_iff, negb_true_iff, Z.ltb_lt, Z.eqb_eq, Z.eqb_neq.
  split.
  - intros [[Hle Hmod] Hne]. split; [exact Hle|].
    exists (u / log_every t). split.
    + apply Z.div_str_pos. split; [lia|].
      apply Z.mod_divide in Hmod; [|lia].
      apply Z.divide_pos_le in Hmod; lia.
    + rewrite Z.mul_comm. apply Z.div_exact; lia.
  - intros [Hle (k & Hk & ->)]. repeat split; [exact Hle| |nia].
    apply Z.mod_mul. lia.
Qed.

(** C2: [track_loss] adds exactly 1 to [update] before the cadence test when
    [epoch > 0] and leaves it alone when [epoch = 0]; it sends the prefixed
    tag "loss" with the loss to every configured logger at step [update]
    exactly when [log_every > 0] and [update] is a positive multiple of
    [log_every]; it appends the loss to the buffer in every case. With
    [log_every = 2], [epoch > 0] and [update] starting at 0, five tracked
    losses reach the sinks on the 2nd and the 4th call only, at steps 2 and
    4. *)
Theorem track_loss_cadence (loss l1 l2 l3 l4 l5 : float) (t : Tracker) (s : list event) :
  0 <= update t ->
  let out := track_loss loss {| self := t; sinks := s |} in
  let u := update (self (snd out)) in
  let tag := Str (prefixed (pre_tag t) "loss") in
  fst out = Ok tt
  /\ (0 < epoch t -> u = update t + 1)
  /\ (epoch t = 0 -> u = update t)
  /\ losses (self (snd out)) = losses t ++ [loss]
  /\ (0 < log_every t /\ positive_multiple u (log_every t) ->
      sinks (snd out) = s ++ fan_out (loggers t) tag loss u)
  /\ (~ (0 < log_every t /\ positive_multiple u (log_every t)) ->
      sinks (snd out) = s)
  /\ (log_every t = 2 -> 0 < epoch t -> update t = 0 ->
      sinks (snd (track_losses [l1; l2; l3; l4; l5] {| self := t; sinks := s |}))
      = s ++ fan_out (loggers t) tag l2 2 ++ fan_out (loggers t) tag l4 4).
Proof.
  intros Hu out u tag. subst u out. rewrite track_loss_run.
  cbn [fst snd self sinks update losses set_losses set_update].
  assert (Hn : 0 <= next_update t).
  { unfold next_update. destruct (0 <? epoch t); lia. }
  pose proof (cadence_spec t (next_update t) Hn) as Hc.
  split; [reflexivity|].
  split. { intros He. unfold next_update. apply Z.ltb_lt in He. now rewrite He. }
  split. { intros He. unfold next_update. now rewrite He. }
  split; [reflexivity|].
  split. { intros H. apply Hc in H. now rewrite H. }
  split.
  { intros H. destruct (cadence t (next_update t)).
    - exfalso. apply H, Hc. reflexivity.
    - apply app_nil_r. }
  intros Hev He H0. unfold track_losses. cbn [for_each].
  repeat match goal with
  | |- context [bind (track_loss ?l) _ {| self := ?t'; sinks := ?s' |}] =>
      rewrite (bind_ok _ _ _ _ _ (track_loss_run_pos l t' s' He))
  end.
  unfold cadence.
  cbn [ret snd sinks update loggers pre_tag log_every set_losses set_update].
  rewrite Hev, H0. cbn. subst tag.
  now rewrite !app_nil_r, <- app_assoc.
Qed.

Lemma set_losses_same (t : Tracker) : set_losses (losses t) t = t.
Proof. now destruct t. Qed.

(** C3, as the code has it: on an empty buffer [summarise] does not fail. It
    returns the [nan] that NumPy gives for the mean of an empty list, sends it
    as "avg_loss" to every configured logger at step [epoch], and adds 1 to
    [epoch]; the buffer stays empty. *)
Theorem summarise_empty_nan (t : Tracker) (s : list event) :
  losses t = [] ->
  let out := summarise {| self := t; sinks := s |} in
  out = (Ok nan,
         {| self := set_epoch (epoch t + 1) t;
            sinks := s ++ fan_out (loggers t) (Str (prefixed (pre_tag t) "avg_loss"))
                                  nan (epoch t) |})
  /\ (forall e, fst out <> Raise e)
  /\ losses (self (snd out)) = [].
Proof.
  intros Hl out. subst out. rewrite summarise_run, Hl, np_mean_nil.
  rewrite <- Hl, set_losses_same.
  cbn [fst snd self losses set_epoch].
  split; [reflexivity|split; [discriminate|reflexivity]].
Qed.

(** C4: with metrics configured and [len(y) != len(pred)], [compute_metrics]
    raises the assertion error at once: nothing has reached a sink and the
    tracker is as it was. *)
Theorem compute_metrics_length_mismatch (y pred : list float) (t : Tracker)
    (s : list event) :
  truthy (metrics t) = true ->
  List.length y <> List.length pred ->
  compute_metrics y pred {| self := t; sinks := s |}
  = (Raise (AssertionError length_msg), {| self := t; sinks := s |}).
Proof. apply compute_metrics_assert. Qed.

Lemma track_losses_epoch0 (batch : list float) (t : Tracker) (s : list event) :
  epoch t = 0 -> update t = 0 ->
  track_losses batch {| self := t; sinks := s |}
  = (Ok tt, {| self := set_losses (losses t ++ batch) t; sinks := s |}).
Proof.
  unfold track_losses. revert t.
  induction batch as [|l batch IH]; intros t He Hu; cbn [for_each].
  - unfold ret. now rewrite app_nil_r, set_losses_same.
  - rewrite (bind_ok _ _ _ _ _ (track_loss_run l t s)).
    assert (Hn : next_update t = 0) by (unfold next_update; now rewrite He, Hu).
    unfold cadence. rewrite Hn. cbn [Z.eqb negb]. rewrite andb_false_r, app_nil_r.
    rewrite <- Hu at 1. rewrite set_update_same.
    rewrite IH by assumption.
    cbn [losses set_losses]. rewrite <- app_assoc.
    now destruct t.
Qed.

(** C5: while [epoch = 0], [track_loss] leaves [update] alone, so a loss is
    sent during epoch 0 only when the value [update] already has satisfies
    [update % log_every == 0 and update != 0]; on a freshly constructed
    tracker no "loss" scalar is sent during epoch 0, whatever [log_every] and
    however many losses are tracked. *)
Theorem track_loss_epoch0 (loss : float) (t : Tracker) (s : list event)
    (lgs : list logger) (every : Z) (ms : option (list metric))
    (nms : option (list string)) (pre : string) (batch : list float) :
  (epoch t = 0 ->
   let w' := snd (track_loss loss {| self := t; sinks := s |}) in
   update (self w') = update t
   /\ (sinks w' <> s ->
       0 < log_every t /\ update t mod log_every t = 0 /\ update t <> 0))
  /\ (let fresh := __init__ lgs every ms nms pre in
      track_losses batch {| self := fresh; sinks := s |}
      = (Ok tt, {| self := set_losses batch fresh; sinks := s |})).
Proof.
  split.
  - intros He w'. subst w'. rewrite track_loss_run.
    cbn [snd self sinks update set_losses set_update].
    assert (Hn : next_update t = update t) by (unfold next_update; now rewrite He).
    rewrite Hn. split; [reflexivity|].
    unfold cadence. intros Hs.
    destruct ((0 <? log_every t) && (update t mod log_every t =? 0)
              && negb (update t =? 0)) eqn:Hc.
    + rewrite !andb_true_iff, negb_true_iff in Hc.
      destruct Hc as [[H1 H2] H3].
      apply Z.ltb_lt in H1. apply Z.eqb_eq in H2. apply Z.eqb_neq in H3.
      now repeat split.
    + exfalso. apply Hs. apply app_nil_r.
  - intros fresh. now rewrite track_losses_epoch0.
Qed.

(** C7: every tag that an operation of the tracker sends is
    [pre_tag + "." + name] when [pre_tag] is not empty and [name] itself when
    it is empty, [name] being one of the names of the operation; with
    [pre_tag = "train"] the tag of a tracked loss is "train.loss". *)
Theorem emitted_tags_prefixed (o : op) (w : world) :
  (exists new,
     sinks (step o w) = sinks w ++ new
     /\ Forall (fun e => exists n, In n (op_names (self w) o)
                                   /\ tag_ok (pre_tag (self w)) n (ev_tag e)) new)
  /\ (forall loss new,
        pre_tag (self w) = "train" ->
        sinks (step (TrackLoss loss) w) = sinks w ++ new ->
        Forall (fun e => ev_tag e = Str "train.loss") new).
Proof.
  destruct w as [t s]. cbn [self sinks]. split.
  - destruct o as [loss| |y pred]; cbn [step op_names].
    + rewrite track_loss_run. cbn [snd sinks]. eexists. split; [reflexivity|].
      destruct (cadence t (next_update t)); [|constructor].
      unfold fan_out. apply Forall_map, Forall_forall. intros lg _.
      exists (Str "loss"). split; [now left|apply tag_ok_prefixed].
    + rewrite summarise_run. cbn [snd sinks]. eexists. split; [reflexivity|].
      unfold fan_out. apply Forall_map, Forall_forall. intros lg _.
      exists (Str "avg_loss"). split; [now left|apply tag_ok_prefixed].
    + destruct (compute_metrics_appends y pred t s) as (new & E & Hnew).
      exists new. rewrite E. now split.
  - intros loss new Hpre. cbn [step]. rewrite track_loss_run. cbn [snd sinks].
    intros E. apply app_inv_head in E. subst new. rewrite Hpre.
    destruct (cadence t (next_update t)); [|constructor].
    unfold fan_out. apply Forall_map, Forall_forall. now intros lg _.
Qed.

(** C8: [compute_metrics] never changes the tracker: however the call ends
    (normally, as a no-op, on the length check or on any other exception)
    every field of the tracker is what it was, and the sinks have only
    received further calls. *)
Theorem compute_metrics_frame (y pred : list float) (w : world) :
  self (snd (compute_metrics y pred w)) = self w
  /\ exists new, sinks (snd (compute_metrics y pred w)) = sinks w ++ new.
Proof.
  destruct w as [t s].
  destruct (compute_metrics_appends y pred t s) as (new & E & _).
  rewrite E. split; [reflexivity|now exists new].
Qed.

(** C9: with [metrics] [None] or empty, [compute_metrics] returns at once for
    every [y] and [pred]: no length is compared, so lists of different
    lengths raise nothing, and nothing is sent. *)
Theorem compute_metrics_no_metrics (y pred : list float) (t : Tracker)
    (s : list event) :
  metrics t = None \/ metrics t = Some [] ->
  compute_metrics y pred {| self := t; sinks := s |}
  = (Ok tt, {| self := t; sinks := s |}).
Proof.
  intros H. apply compute_metrics_noop. now destruct H as [-> | ->].
Qed.

Lemma _pre_str (n : string) (t : Tracker) (s : list event) :
  _pre (Str n) {| self := t; sinks := s |}
  = (Ok (Str (prefixed (pre_tag t) n)), {| self := t; sinks := s |}).
Proof.
  unfold _pre, bind, get, prefixed; cbn [self]. now destruct (pre_tag t).
Qed.

Lemma yields_named (y pred : list float) (t : Tracker) :
  forall (ms : list metric) (nms : list string) (vals : list float),
    Forall2 (fun m v => metric_call m y pred = Ok v)
            (firstn (List.length nms) ms) vals ->
    Forall2 (yields y pred t) (combine ms (map Str nms))
            (combine (map (fun n => Str (prefixed (pre_tag t) n)) nms) vals).
Proof.
  induction ms as [|m ms IH]; intros nms vals H.
  - rewrite firstn_nil in H. inversion H. destruct nms; constructor.
  - destruct nms as [|n nms]; cbn [List.length firstn] in H.
    + inversion H. constructor.
    + inversion H as [|? v ? vals' Hcall Hrest]; subst.
      cbn [map combine]. constructor; [|now apply IH].
      split; [|exact Hcall]. intros s. apply _pre_str.
Qed.

Lemma scalars_to_named (t : Tracker) (lg : logger) (f : string -> name) :
  forall (nms : list string) (vals : list float),
    scalars_to t (combine (map f nms) vals) lg
    = map (fun nv => mk_event lg (f (fst nv)) (snd nv) (epoch t)) (combine nms vals).
Proof.
  unfold scalars_to.
  induction nms as [|n nms IH]; intros [|v vals]; cbn [map combine fst snd];
    try reflexivity.
  now rewrite IH.
Qed.

(** C10, as the code has it: when [metrics_names] is a non-empty list, the
    pairs are cut at the shorter of [metrics] and [metrics_names]. Only the
    first [len(metrics_names)] metrics are called (the others may be anything),
    every logger receives their values under the prefixed names, names beyond
    [len(metrics)] are dropped, and the call returns without an error. *)
Theorem compute_metrics_names_cut (y pred : list float) (t : Tracker) (s : list event)
    (ms : list metric) (nms : list string) (vals : list float) :
  metrics t = Some ms -> ms <> [] ->
  metrics_names t = Some nms -> nms <> [] ->
  List.length y = List.length pred ->
  Forall2 (fun m v => metric_call m y pred = Ok v) (firstn (List.length nms) ms) vals ->
  compute_metrics y pred {| self := t; sinks := s |}
  = (Ok tt,
     {| self := t;
        sinks := s ++ flat_map (fun lg =>
                   map (fun nv => mk_event lg (Str (prefixed (pre_tag t) (fst nv)))
                                           (snd nv) (epoch t))
                       (combine nms vals)) (loggers t) |})
  /\ List.length (combine nms vals) = Nat.min (List.length ms) (List.length nms).
Proof.
  intros Hm Hms Hn Hnms Hlen Hvals. split.
  - rewrite (compute_metrics_emit y pred t s
               (combine (map (fun n => Str (prefixed (pre_tag t) n)) nms) vals)).
    + do 2 f_equal. f_equal. apply flat_map_ext. intros lg.
      apply (scalars_to_named t lg (fun n => Str (prefixed (pre_tag t) n))).
    + rewrite Hm. now destruct ms.
    + exact Hlen.
    + unfold names_of. rewrite Hm, Hn. destruct nms; [congruence|].
      cbn [truthy the]. now apply yields_named.
  - apply Forall2_length in Hvals. rewrite length_firstn in Hvals.
    rewrite length_combine. lia.
Qed.

End TrackerProofs.

(** * [summarise] on doubles *)

Section FloatMean.





End FloatMean.

(** * Sequences of calls *)

Section RunProofs.
Context `{NP : NumPy}.

(** The tracker after one call. *)
Lemma step_self (o : op) (t : Tracker) (s : list event) :
  self (step o {| self := t; sinks := s |})
  = match o with
    | TrackLoss loss => set_losses (losses t ++ [loss]) (set_update (next_update t) t)
    | Summarise => set_epoch (epoch t + 1) (set_losses [] t)
    | ComputeMetrics _ _ => t
    end.
Proof.
  destruct o as [loss| |y pred]; cbn [step].
  - now rewrite track_loss_run.
  - now rewrite summarise_run.
  - destruct (compute_metrics_appends y pred t s) as (new & E & _). now rewrite E.
Qed.

Lemma step_loggers (o : op) (w : world) :
  loggers (self (step o w)) = loggers (self w).
Proof. destruct w as [t s]. rewrite step_self. now destruct o. Qed.

Lemma run_cons (o : op) (ops : list op) (w : world) :
  run (o :: ops) w = run ops (step o w).
Proof. reflexivity. Qed.

Lemma run_app (ops1 ops2 : list op) (w : world) :
  run (ops1 ++ ops2) w = run ops2 (run ops1 w).
Proof. unfold run. apply fold_left_app. Qed.

(** X1: The configuration given to [__init__] is never written again: after any
    sequence of calls, whatever they returned or raised, the loggers,
    [log_every], the metrics, their names and [pre_tag] are what they
    were. *)
Theorem run_keeps_configuration (ops : list op) (w : world) :
  let t := self w in
  let t' := self (run ops w) in
  loggers t' = loggers t /\ log_every t' = log_every t
  /\ metrics t' = metrics t /\ metrics_names t' = metrics_names t
  /\ pre_tag t' = pre_tag t.
Proof.
  revert w. induction ops as [|o ops IH]; intros w; [now cbn|].
  rewrite run_cons. cbn zeta.
  destruct (IH (step o w)) as (H1 & H2 & H3 & H4 & H5).
  rewrite H1, H2, H3, H4, H5. destruct w as [t s]. rewrite step_self.
  now destruct o.
Qed.

(** The events of the inner loop of [compute_metrics] go to the logger of the
    outer loop, at the step [epoch]. *)
Lemma metric_body_event (y pred : list float) (t : Tracker) (s : list event)
    (lg : logger) (m : metric) (n : name) :
  exists new,
    snd ((tag <- _pre n ;;
          value <- (fun w => (metric_call m y pred, w)) ;;
          step <- get epoch ;;
          log_scalar lg tag value step) {| self := t; sinks := s |})
    = {| self := t; sinks := s ++ new |}
    /\ Forall (fun e => ev_logger e = lg /\ ev_step e = epoch t) new.
Proof.
  destruct (_pre_cases n {| self := t; sinks := s |}) as [(tag & E & _)|E].
  - rewrite (bind_ok _ _ _ _ _ E). unfold bind at 1.
    destruct (metric_call m y pred) as [v|e].
    + exists [mk_event lg tag v (epoch t)]. split; [reflexivity|].
      constructor; [now split|constructor].
    + exists []. now rewrite app_nil_r.
  - rewrite (bind_raise _ _ _ _ _ E). exists []. now rewrite app_nil_r.
Qed.

Lemma compute_metrics_events (y pred : list float) (t : Tracker) (s : list event) :
  exists new,
    snd (compute_metrics y pred {| self := t; sinks := s |})
    = {| self := t; sinks := s ++ new |}
    /\ Forall (fun e => In (ev_logger e) (loggers t) /\ ev_step e = epoch t) new.
Proof.
  destruct (truthy (metrics t)) eqn:Hm.
  2:{ rewrite compute_metrics_noop by exact Hm. exists []. now rewrite app_nil_r. }
  destruct (Nat.eq_dec (List.length y) (List.length pred)) as [Hlen|Hlen].
  2:{ rewrite compute_metrics_assert by assumption. exists []. now rewrite app_nil_r. }
  rewrite compute_metrics_loops by assumption.
  apply for_each_appends. intros lg s1 Hlg.
  apply for_each_appends. intros [m n] s2 _.
  destruct (metric_body_event y pred t s2 lg m n) as (new & E & Hnew).
  exists new. split; [exact E|].
  eapply Forall_impl; [|exact Hnew].
  intros e [He1 He2]. split; [now rewrite He1|exact He2].
Qed.

Lemma fan_out_loggers (lgs : list logger) (tag : name) (v : float) (z : Z) :
  Forall (fun e => In (ev_logger e) lgs) (fan_out lgs tag v z).
Proof.
  unfold fan_out. apply Forall_map, Forall_forall. now intros lg Hlg.
Qed.

Lemma step_events (o : op) (t : Tracker) (s : list event) :
  exists new,
    sinks (step o {| self := t; sinks := s |}) = s ++ new
    /\ Forall (fun e => In (ev_logger e) (loggers t)) new.
Proof.
  destruct o as [loss| |y pred]; cbn [step].
  - rewrite track_loss_run. cbn [snd sinks]. eexists. split; [reflexivity|].
    destruct (cadence t (next_update t)); [apply fan_out_loggers|constructor].
  - rewrite summarise_run. cbn [snd sinks]. eexists. split; [reflexivity|].
    apply fan_out_loggers.
  - destruct (compute_metrics_events y pred t s) as (new & E & Hnew).
    exists new. rewrite E. split; [reflexivity|].
    eapply Forall_impl; [|exact Hnew]. now intros e [He _].
Qed.

(** X2: The sinks are only ever appended to, and only the configured loggers are
    called: after any sequence of calls the record of the sinks is the old one
    followed by calls on loggers of the tracker. Without loggers no call
    leaves a trace. *)
Theorem run_calls_configured_loggers (ops : list op) (w : world) :
  (exists new,
     sinks (run ops w) = sinks w ++ new
     /\ Forall (fun e => In (ev_logger e) (loggers (self w))) new)
  /\ (loggers (self w) = [] -> sinks (run ops w) = sinks w).
Proof.
  assert (H : exists new,
     sinks (run ops w) = sinks w ++ new
     /\ Forall (fun e => In (ev_logger e) (loggers (self w))) new).
  { revert w. induction ops as [|o ops IH]; intros w.
    - exists []. cbn. now rewrite app_nil_r.
    - rewrite run_cons. destruct (IH (step o w)) as (new2 & E2 & H2).
      rewrite step_loggers in H2.
      destruct w as [t s]. destruct (step_events o t s) as (new1 & E1 & H1).
      exists (new1 ++ new2). rewrite E2, E1, app_assoc. split; [reflexivity|].
      apply Forall_app. now split. }
  split; [exact H|].
  intros Hno. destruct H as (new & E & Hnew). rewrite E, Hno in *.
  destruct new as [|e new]; [apply app_nil_r|].
  inversion Hnew as [|? ? He _]. destruct He.
Qed.

(** X3: [epoch] counts the calls of [summarise]: no other call moves it. *)
Theorem epoch_counts_summarise (ops : list op) (w : world) :
  epoch (self (run ops w))
  = epoch (self w) + Z.of_nat (List.length (filter is_summarise ops)).
Proof.
  revert w. induction ops as [|o ops IH]; intros w; [cbn; lia|].
  rewrite run_cons, IH. destruct w as [t s]. rewrite step_self.
  destruct o; cbn [filter is_summarise List.length self epoch set_losses
                   set_update set_epoch]; lia.
Qed.

(** X4: Once [epoch] is positive, [update] counts the calls of [track_loss]. *)
Theorem update_counts_track_loss (ops : list op) (w : world) :
  0 < epoch (self w) ->
  update (self (run ops w))
  = update (self w) + Z.of_nat (List.length (tracked ops)).
Proof.
  revert w. induction ops as [|o ops IH]; intros w He; [cbn; lia|].
  rewrite run_cons, IH.
  - destruct w as [t s]. rewrite step_self. cbn [self] in He.
    destruct o; cbn [tracked flat_map List.length app self update set_losses
                     set_update set_epoch]; fold (tracked ops); try lia.
    unfold next_update. apply Z.ltb_lt in He. rewrite He. lia.
  - pose proof (step_counters o w) as E. cbn zeta in E. lia.
Qed.

Lemma run_buffer (ops : list op) (w : world) :
  forallb (fun o => negb (is_summarise o)) ops = true ->
  losses (self (run ops w)) = losses (self w) ++ tracked ops.
Proof.
  revert w. induction ops as [|o ops IH]; intros w Hno.
  - cbn. now rewrite app_nil_r.
  - cbn [forallb] in Hno. apply andb_true_iff in Hno. destruct Hno as [Ho Hno].
    rewrite run_cons, IH by exact Hno.
    destruct w as [t s]. rewrite step_self.
    destruct o; cbn [is_summarise negb] in Ho; try discriminate;
      cbn [tracked flat_map self losses set_losses set_update app];
      fold (tracked ops); [now rewrite <- app_assoc|reflexivity].
Qed.

(** X5: The buffer holds the losses tracked since the last [summarise], in their
    order: what came before that call, and the calls of [compute_metrics]
    in between, leave nothing in it. *)
Theorem buffer_since_summarise (before after : list op) (w : world) :
  forallb (fun o => negb (is_summarise o)) after = true ->
  losses (self (run (before ++ Summarise :: after) w)) = tracked after.
Proof.
  intros Hno. rewrite run_app, run_cons, run_buffer by exact Hno.
  destruct (run before w) as [t s]. now rewrite step_self.
Qed.

End RunProofs.

(** * Batches of losses *)

Section BatchProofs.
Context `{NP : NumPy}.

Lemma batch_events_ext (t1 t : Tracker) :
  epoch t1 = epoch t -> log_every t1 = log_every t ->
  loggers t1 = loggers t -> pre_tag t1 = pre_tag t ->
  forall batch u, batch_events t1 u batch = batch_events t u batch.
Proof.
  intros He Hk Hl Hp. induction batch as [|loss rest IH]; intros u; [reflexivity|].
  cbn [batch_events]. unfold cadence. rewrite He, Hk, Hl, Hp. now rewrite IH.
Qed.

(** A batch of losses tracked one after the other. *)
Lemma track_losses_run (batch : list float) :
  forall (t : Tracker) (s : list event),
    track_losses batch {| self := t; sinks := s |}
    = (Ok tt,
       {| self := set_losses (losses t ++ batch)
                    (set_update (if 0 <? epoch t
                                 then update t + Z.of_nat (List.length batch)
                                 else update t) t);
          sinks := s ++ batch_events t (update t) batch |}).
Proof.
  unfold track_losses.
  induction batch as [|loss rest IH]; intros t s; cbn [for_each batch_events].
  - unfold ret. rewrite !app_nil_r. cbn [List.length Z.of_nat].
    rewrite Z.add_0_r. destruct (0 <? epoch t);
      now rewrite set_update_same, set_losses_same.
  - rewrite (bind_ok _ _ _ _ _ (track_loss_run loss t s)). rewrite IH.
    cbn [epoch update losses set_losses set_update].
    rewrite (batch_events_ext _ t) by reflexivity.
    unfold next_update. rewrite <- !app_assoc. cbn [app].
    replace (Z.of_nat (List.length (loss :: rest)))
      with (1 + Z.of_nat (List.length rest)) by (cbn [List.length]; lia).
    rewrite Z.add_assoc.
    destruct (0 <? epoch t); reflexivity.
Qed.

Lemma div_succ (k u : Z) :
  0 < k -> 0 <= u ->
  (u + 1) / k = u / k + (if (u + 1) mod k =? 0 then 1 else 0).
Proof.
  intros Hk Hu.
  pose proof (Z.div_mod u k ltac:(lia)) as E.
  pose proof (Z.mod_pos_bound u k Hk) as B.
  destruct (Z.eq_dec (u mod k + 1) k) as [Hr|Hr].
  - assert (E1 : u + 1 = k * (u / k + 1) + 0) by lia.
    assert (B1 : 0 <= 0 < k) by lia.
    rewrite <- (Z.mod_unique_pos (u + 1) k (u / k + 1) 0 B1 E1). cbn [Z.eqb].
    now rewrite <- (Z.div_unique_pos (u + 1) k (u / k + 1) 0 B1 E1).
  - assert (E1 : u + 1 = k * (u / k) + (u mod k + 1)) by lia.
    assert (B1 : 0 <= u mod k + 1 < k) by lia.
    rewrite <- (Z.mod_unique_pos (u + 1) k (u / k) (u mod k + 1) B1 E1).
    rewrite <- (Z.div_unique_pos (u + 1) k (u / k) (u mod k + 1) B1 E1).
    destruct (Z.eqb_spec (u mod k + 1) 0); lia.
Qed.

Lemma cadence_running (t : Tracker) (u : Z) :
  0 < log_every t -> 0 <= u ->
  cadence t (u + 1) = ((u + 1) mod log_every t =? 0).
Proof.
  intros Hk Hu. unfold cadence.
  apply Z.ltb_lt in Hk. rewrite Hk. cbn [andb].
  destruct (Z.eqb_spec (u + 1) 0); [lia|]. cbn [negb]. apply andb_true_r.
Qed.

Lemma fan_out_count (lgs : list logger) (tag : name) (v : float) (z : Z)
    (lg : logger) :
  List.length (filter (fun e => Nat.eqb (ev_logger e) lg) (fan_out lgs tag v z))
  = count_occ Nat.eq_dec lgs lg.
Proof.
  unfold fan_out. induction lgs as [|lg0 lgs IH]; [reflexivity|].
  cbn [map filter mk_event ev_logger count_occ].
  destruct (Nat.eqb_spec lg0 lg) as [E|E]; destruct (Nat.eq_dec lg0 lg) as [E'|E'];
    try contradiction; cbn [List.length]; now rewrite IH.
Qed.

Lemma batch_events_per_logger (t : Tracker) (lg : logger) :
  0 < epoch t -> 0 < log_every t ->
  forall batch u, 0 <= u ->
    Z.of_nat (List.length (filter (fun e => Nat.eqb (ev_logger e) lg)
                                  (batch_events t u batch)))
    = ((u + Z.of_nat (List.length batch)) / log_every t - u / log_every t)
      * Z.of_nat (count_occ Nat.eq_dec (loggers t) lg).
Proof.
  intros He Hk. induction batch as [|loss rest IH]; intros u Hu.
  - cbn [batch_events filter List.length Z.of_nat]. rewrite Z.add_0_r. lia.
  - cbn [batch_events]. apply Z.ltb_lt in He. rewrite He.
    rewrite filter_app, length_app, Nat2Z.inj_add, IH by lia.
    rewrite cadence_running, (div_succ (log_every t) u) by assumption.
    replace (u + Z.of_nat (List.length (loss :: rest)))
      with (u + 1 + Z.of_nat (List.length rest)) by (cbn [List.length]; lia).
    destruct ((u + 1) mod log_every t =? 0).
    + rewrite fan_out_count. ring.
    + cbn [filter List.length Z.of_nat]. ring.
Qed.

(** The events of a batch, call by call: the [i]-th loss is sent, to every
    logger, when [u + i] is a multiple of [log_every], at that step. *)
Lemma batch_events_explicit (t : Tracker) :
  0 < epoch t -> 0 < log_every t ->
  forall batch u, 0 <= u ->
    batch_events t u batch
    = flat_map (fun sl =>
          if fst sl mod log_every t =? 0
          then fan_out (loggers t) (Str (prefixed (pre_tag t) "loss")) (snd sl) (fst sl)
          else [])
        (combine (map (fun i => u + Z.of_nat i) (seq 1 (List.length batch))) batch).
Proof.
  intros He Hk. induction batch as [|loss rest IH]; intros u Hu; [reflexivity|].
  cbn [batch_events List.length seq map combine flat_map fst snd].
  pose proof He as He'. apply Z.ltb_lt in He'. rewrite He'.
  change (Z.of_nat 1) with 1.
  rewrite cadence_running by assumption. f_equal.
  rewrite IH by lia. do 2 f_equal.
  rewrite <- (seq_shift (List.length rest) 1), map_map.
  apply map_ext. intros i. lia.
Qed.

(** X8: Over a batch of [n] losses tracked while [epoch > 0], with
    [log_every = k > 0] and [update = u >= 0]: [update] ends at [u + n], every
    loss is buffered, and the sinks receive, call after call, the [i]-th loss
    at step [u + i] on every logger of the tracker when [u + i] is a multiple
    of [k], and nothing otherwise. A logger thus receives
    [(u + n) / k - u / k] "loss" scalars for each time it is configured. *)
Theorem track_losses_cadence_count (batch : list float) (t : Tracker) (s : list event) :
  0 < epoch t -> 0 < log_every t -> 0 <= update t ->
  let n := Z.of_nat (List.length batch) in
  let tag := Str (prefixed (pre_tag t) "loss") in
  let steps := map (fun i => update t + Z.of_nat i) (seq 1 (List.length batch)) in
  let new := flat_map (fun sl =>
                 if fst sl mod log_every t =? 0
                 then fan_out (loggers t) tag (snd sl) (fst sl)
                 else [])
               (combine steps batch) in
  track_losses batch {| self := t; sinks := s |}
  = (Ok tt, {| self := set_losses (losses t ++ batch) (set_update (update t + n) t);
               sinks := s ++ new |})
  /\ forall lg,
       Z.of_nat (List.length (filter (fun e => Nat.eqb (ev_logger e) lg) new))
       = ((update t + n) / log_every t - update t / log_every t)
         * Z.of_nat (count_occ Nat.eq_dec (loggers t) lg).
Proof.
  intros He Hk Hu n tag steps new. subst new steps tag.
  rewrite <- (batch_events_explicit t He Hk batch (update t) Hu).
  split.
  - rewrite track_losses_run. pose proof He as He'. apply Z.ltb_lt in He'.
    now rewrite He'.
  - intros lg. now apply batch_events_per_logger.
Qed.

Lemma batch_events_disabled (t : Tracker) :
  log_every t <= 0 -> forall batch u, batch_events t u batch = [].
Proof.
  intros Hk. induction batch as [|loss rest IH]; intros u; [reflexivity|].
  cbn [batch_events]. unfold cadence.
  destruct (Z.ltb_spec 0 (log_every t)); [lia|]. cbn [andb app]. apply IH.
Qed.

(** X9: [log_every <= 0] switches the per-batch logging off: however many losses
    are tracked, in whatever epoch, the sinks receive nothing, while the
    losses are still buffered. *)
Theorem track_losses_disabled (batch : list float) (t : Tracker) (s : list event) :
  log_every t <= 0 ->
  let out := track_losses batch {| self := t; sinks := s |} in
  fst out = Ok tt /\ sinks (snd out) = s
  /\ losses (self (snd out)) = losses t ++ batch.
Proof.
  intros Hk out. subst out. rewrite track_losses_run, batch_events_disabled by exact Hk.
  cbn [fst snd self sinks losses set_losses]. now rewrite app_nil_r.
Qed.

Lemma run_reachable (ops : list op) :
  forall w, reachable w -> reachable (run ops w).
Proof.
  induction ops as [|o ops IH]; intros w Hr; [exact Hr|].
  rewrite run_cons. apply IH. now apply reach_step.
Qed.

(** X6: A tracker built by [__init__] and driven through any sequence of
    calls never has a negative [epoch] or [update], and its [update] is 0 for
    as long as its [epoch] is 0. *)
Theorem fresh_run_counters (lgs : list logger) (every : Z) (ms : option (list metric))
    (nms : option (list string)) (pre : string) (s : list event) (ops : list op) :
  let t := self (run ops {| self := __init__ lgs every ms nms pre; sinks := s |}) in
  0 <= epoch t /\ 0 <= update t /\ (epoch t = 0 -> update t = 0).
Proof.
  apply reachable_counters, run_reachable, reach_init.
Qed.

(** X7: On any tracker that [__init__] built and its operations drove, a batch
    tracked while [epoch] is still 0 reaches no sink. *)
Theorem baseline_epoch_silent (batch : list float) (w : world) :
  reachable w -> epoch (self w) = 0 ->
  sinks (snd (track_losses batch w)) = sinks w.
Proof.
  intros Hr He. destruct (reachable_counters w Hr) as (_ & _ & Hu).
  destruct w as [t s]. cbn [self] in *.
  now rewrite track_losses_epoch0 by auto.
Qed.

(** X10: A [summarise] that directly follows another finds the buffer
    empty: it returns [nan], sends [nan] as "avg_loss" to every logger at the
    step after that of the first call, behind what the first call sent, and
    leaves [epoch] two above its value before the first call, the buffer still
    empty. *)
Theorem summarise_twice (t : Tracker) (s : list event) :
  let first := summarise {| self := t; sinks := s |} in
  summarise (snd first)
  = (Ok nan,
     {| self := set_epoch (epoch t + 2) (set_losses [] t);
        sinks := sinks (snd first)
                 ++ fan_out (loggers t) (Str (prefixed (pre_tag t) "avg_loss"))
                            nan (epoch t + 1) |}).
Proof.
  intros first. subst first. rewrite summarise_run. cbn [snd sinks].
  rewrite summarise_run.
  cbn [epoch losses loggers pre_tag set_epoch set_losses].
  rewrite np_mean_nil.
  replace (epoch t + 1 + 1) with (epoch t + 2) by lia.
  reflexivity.
Qed.

End BatchProofs.

(** * More on [compute_metrics] *)

Section MetricProofs.
Context `{NP : NumPy}.

(** X11: Without loggers the double loop has no iteration: with lists of equal
    length [compute_metrics] returns and leaves no trace, whatever the metrics
    (none is called), their names and [pre_tag]. *)
Theorem compute_metrics_no_loggers (y pred : list float) (t : Tracker)
    (s : list event) :
  loggers t = [] ->
  List.length y = List.length pred ->
  compute_metrics y pred {| self := t; sinks := s |}
  = (Ok tt, {| self := t; sinks := s |}).
Proof.
  intros Hl Hlen. destruct (truthy (metrics t)) eqn:Hm.
  - rewrite compute_metrics_loops by assumption. now rewrite Hl.
  - now apply compute_metrics_noop.
Qed.

Lemma yields_objects (y pred : list float) (t : Tracker) :
  pre_tag t = "" ->
  forall (ms : list metric) (vals : list float),
    Forall2 (fun m v => metric_call m y pred = Ok v) ms vals ->
    Forall2 (yields y pred t) (combine ms (map Obj ms))
            (combine (map Obj ms) vals).
Proof.
  intros Hp. induction 1 as [|m v ms vals Hcall _ IH]; cbn [map combine];
    constructor; [|exact IH].
  split; [|exact Hcall]. intros s. cbn [fst snd].
  unfold _pre, bind, get; cbn [self]. now rewrite Hp.
Qed.

Lemma scalars_to_map {A} (t : Tracker) (lg : logger) (f : A -> name) :
  forall (l : list A) (vals : list float),
    scalars_to t (combine (map f l) vals) lg
    = map (fun av => mk_event lg (f (fst av)) (snd av) (epoch t)) (combine l vals).
Proof.
  unfold scalars_to.
  induction l as [|a l IH]; intros [|v vals]; cbn [map combine fst snd];
    try reflexivity.
  now rewrite IH.
Qed.

(** X12: Metrics without names under an empty [pre_tag]: every logger receives, at
    the step [epoch], the value of each metric tagged with the metric object
    itself, logger after logger and in the order of the metrics. *)
Theorem compute_metrics_object_names (y pred : list float) (t : Tracker)
    (s : list event) (ms : list metric) (vals : list float) :
  metrics t = Some ms -> ms <> [] ->
  truthy (metrics_names t) = false ->
  pre_tag t = "" ->
  List.length y = List.length pred ->
  Forall2 (fun m v => metric_call m y pred = Ok v) ms vals ->
  compute_metrics y pred {| self := t; sinks := s |}
  = (Ok tt,
     {| self := t;
        sinks := s ++ flat_map (fun lg =>
                   map (fun mv => mk_event lg (Obj (fst mv)) (snd mv) (epoch t))
                       (combine ms vals)) (loggers t) |}).
Proof.
  intros Hm Hms Hn Hp Hlen Hvals.
  rewrite (compute_metrics_emit y pred t s (combine (map Obj ms) vals)).
  - do 2 f_equal. f_equal. apply flat_map_ext. intros lg.
    apply (scalars_to_map t lg Obj).
  - rewrite Hm. now destruct ms.
  - exact Hlen.
  - unfold names_of. rewrite Hn, Hm. cbn [the]. now apply yields_objects.
Qed.

(** The inner loop up to a metric that raises: the scalars of the metrics
    before it are sent, then the exception ends the loop. *)
Lemma metric_loop_raises (y pred : list float) (t : Tracker) (lg : logger)
    (bad : metric) (rest : list metric) (e : exn) :
  metric_call bad y pred = Raise e ->
  forall (good : list metric) (vals : list float),
    Forall2 (fun m v => metric_call m y pred = Ok v) good vals ->
    forall (nms : list string) (s : list event),
      (List.length good < List.length nms)%nat ->
      for_each (combine (good ++ bad :: rest) (map Str nms)) (fun '(m, metric_name) =>
          tag <- _pre metric_name ;;
          value <- (fun w => (metric_call m y pred, w)) ;;
          step <- get epoch ;;
          log_scalar lg tag value step) {| self := t; sinks := s |}
      = (Raise e,
         {| self := t;
            sinks := s ++ map (fun nv => mk_event lg (Str (prefixed (pre_tag t) (fst nv)))
                                                  (snd nv) (epoch t))
                              (combine nms vals) |}).
Proof.
  intros Hbad. induction 1 as [|m v good vals Hcall _ IH]; intros nms s Hlen;
    (destruct nms as [|n nms]; [cbn [List.length] in Hlen; lia|]);
    cbn [app map combine for_each].
  - apply bind_raise. rewrite (bind_ok _ _ _ _ _ (_pre_str n t s)).
    unfold bind at 1. rewrite Hbad. now rewrite app_nil_r.
  - rewrite (bind_ok _ _ _ tt
       {| self := t;
          sinks := s ++ [mk_event lg (Str (prefixed (pre_tag t) n)) v (epoch t)] |}).
    + rewrite IH by (cbn [List.length] in Hlen; lia).
      now rewrite <- app_assoc.
    + rewrite (bind_ok _ _ _ _ _ (_pre_str n t s)).
      unfold bind at 1. rewrite Hcall. reflexivity.
Qed.

(** X13: A metric that raises ends [compute_metrics] with its exception. The first
    logger has by then received the scalars of the metrics before it; the
    other loggers have received nothing, and the tracker is as it was. *)
Theorem compute_metrics_metric_raises (y pred : list float) (t : Tracker)
    (s : list event) (good rest : list metric) (bad : metric)
    (nms : list string) (vals : list float) (e : exn)
    (lg : logger) (lgs : list logger) :
  metrics t = Some (good ++ bad :: rest) ->
  metrics_names t = Some nms ->
  (List.length good < List.length nms)%nat ->
  List.length y = List.length pred ->
  Forall2 (fun m v => metric_call m y pred = Ok v) good vals ->
  metric_call bad y pred = Raise e ->
  loggers t = lg :: lgs ->
  compute_metrics y pred {| self := t; sinks := s |}
  = (Raise e,
     {| self := t;
        sinks := s ++ map (fun nv => mk_event lg (Str (prefixed (pre_tag t) (fst nv)))
                                              (snd nv) (epoch t))
                          (combine nms vals) |}).
Proof.
  intros Hm Hn Hlt Hlen Hvals Hbad Hlg.
  rewrite compute_metrics_loops; [|rewrite Hm; now destruct good|exact Hlen].
  unfold names_of. rewrite Hn, Hm, Hlg.
  destruct nms as [|n nms]; [cbn [List.length] in Hlt; lia|].
  cbn [truthy the for_each]. apply bind_raise.
  now apply metric_loop_raises.
Qed.

End MetricProofs.

(** * The loops *)

Section LoopProofs.
Context `{TH : Torch}.

Lemma on_tracker_run {A} (m : M world A) (w w' : world) (st : torch) (r : res A) :
  m w = (r, w') ->
  on_tracker m {| tracker := w; framework := st |}
  = (r, {| tracker := w'; framework := st |}).
Proof. unfold on_tracker. cbn [tracker framework]. now intros ->. Qed.

Lemma track_loss_ok (loss : float) (w : world) :
  track_loss loss w = (Ok tt, snd (track_loss loss w)).
Proof. destruct w as [t s]. now rewrite track_loss_run. Qed.

Lemma track_losses_cons (loss : float) (rest : list float) (w : world) :
  snd (track_losses (loss :: rest) w)
  = snd (track_losses rest (snd (track_loss loss w))).
Proof.
  unfold track_losses. cbn [for_each].
  now rewrite (bind_ok _ _ _ _ _ (track_loss_ok loss w)).
Qed.

(** The loop of [evaluate]: the losses of the pass are tracked in order, the
    targets and the predictions are gathered in order. *)
Lemma evaluate_loop (loss_f : tensor -> tensor -> scalar) (dev : device) :
  forall (data : list (inputs * tensor)) (ya pa : list float) (w : world) (st : torch),
    for_fold data (ya, pa) (fun xy '(y_array, preds_array) =>
        '(_, y, logits, loss) <- _forward loss_f dev xy ;;
        on_tracker (track_loss (item loss)) ;;
        let preds := Sigmoid logits in
        ret (y_array ++ flatten y, preds_array ++ flatten preds))
      {| tracker := w; framework := st |}
    = (Ok (ya ++ targets (fst (forward_pass loss_f dev data st)),
           pa ++ predictions (fst (forward_pass loss_f dev data st))),
       {| tracker := snd (track_losses
                            (batch_losses (fst (forward_pass loss_f dev data st))) w);
          framework := snd (forward_pass loss_f dev data st) |}).
Proof.
  induction data as [|[x y] rest IH]; intros ya pa w st; cbn [for_fold forward_pass].
  - cbn [fst snd targets predictions batch_losses flat_map map].
    unfold ret. now rewrite !app_nil_r.
  - cbn [fst snd]. unfold bind at 1. unfold bind at 1.
    unfold _forward at 1. cbn [fst snd tracker framework].
    destruct (network (inputs_to x dev) st) as [out st1].
    rewrite (bind_ok _ _ _ tt
               {| tracker := snd (track_loss (item (loss_f out (tensor_to y dev))) w);
                  framework := st1 |})
      by (apply on_tracker_run, track_loss_ok).
    unfold ret at 1. rewrite IH.
    destruct (forward_pass loss_f dev rest st1) as [more st2].
    cbn [fst snd targets predictions batch_losses flat_map map].
    rewrite track_losses_cons, <- !app_assoc. reflexivity.
Qed.

Lemma _forward_device_some (w : world) (st : torch) (dev : device) :
  parameters_device st = Some dev ->
  _forward_device {| tracker := w; framework := st |}
  = (Ok dev, {| tracker := w; framework := st |}).
Proof. unfold _forward_device. cbn [framework]. now intros ->. Qed.

Lemma _forward_device_none (w : world) (st : torch) :
  parameters_device st = None ->
  _forward_device {| tracker := w; framework := st |}
  = (Raise (RuntimeError stop_msg), {| tracker := w; framework := st |}).
Proof. unfold _forward_device. cbn [framework]. now intros ->. Qed.

(** X14: [evaluate] of a network with a parameter, on a tracker without
    metrics: it returns [np.mean] of the buffer with the losses of the pass
    added to it, and the predictions of all batches in order; the sinks
    receive the "loss" scalars of the cadence and then "avg_loss" at the step
    [epoch]; [epoch] advances by 1 and the buffer is empty. The network is
    left as the evaluation pass leaves it. *)
Theorem evaluate_no_metrics (data : list (inputs * tensor))
    (loss_f : tensor -> tensor -> scalar) (t : Tracker) (s : list event)
    (st : torch) (dev : device) :
  parameters_device (network_eval st) = Some dev ->
  truthy (metrics t) = false ->
  let pass := forward_pass loss_f dev data (network_eval st) in
  let ls := batch_losses (fst pass) in
  let avg := np_mean (losses t ++ ls) in
  Loops.evaluate data loss_f {| tracker := {| self := t; sinks := s |}; framework := st |}
  = (Ok (avg, predictions (fst pass)),
     {| tracker :=
          {| self := set_epoch (epoch t + 1)
                       (set_losses [] (set_update (update_after t (List.length ls)) t));
             sinks := s ++ batch_events t (update t) ls
                        ++ fan_out (loggers t) (Str (prefixed (pre_tag t) "avg_loss"))
                                   avg (epoch t) |};
        framework := snd pass |}).
Proof.
  intros Hdev Hm pass ls avg. unfold Loops.evaluate.
  unfold bind at 1, on_torch at 1. cbn [tracker framework].
  rewrite (bind_ok _ _ _ _ _ (_forward_device_some _ _ _ Hdev)).
  rewrite (bind_ok _ _ _ _ _ (evaluate_loop loss_f dev data [] [] _ _)).
  fold pass. cbn [fst snd app]. fold ls. rewrite track_losses_run. cbn [snd].
  set (t1 := set_losses (losses t ++ ls) _).
  rewrite (bind_ok _ _ _ tt _
             (on_tracker_run _ _ _ _ _ (compute_metrics_noop _ _ t1 _ Hm))).
  rewrite (bind_ok _ _ _ _ _ (on_tracker_run _ _ _ _ _ (summarise_run _ _))).
  unfold ret, update_after. subst t1.
  cbn [losses epoch loggers pre_tag set_losses set_update].
  fold avg. now rewrite <- app_assoc.
Qed.

(** X15: [evaluate] of a network with a parameter, with named metrics that
    return: the metrics are computed on the targets and the predictions of the
    whole pass, and their scalars are sent after the "loss" scalars and
    before "avg_loss", at the same step [epoch] as "avg_loss". *)
Theorem evaluate_metrics (data : list (inputs * tensor))
    (loss_f : tensor -> tensor -> scalar) (t : Tracker) (s : list event)
    (st : torch) (dev : device)
    (ms : list metric) (nms : list string) (vals : list float) :
  let pass := forward_pass loss_f dev data (network_eval st) in
  let ls := batch_losses (fst pass) in
  let avg := np_mean (losses t ++ ls) in
  parameters_device (network_eval st) = Some dev ->
  metrics t = Some ms -> ms <> [] ->
  metrics_names t = Some nms -> nms <> [] ->
  List.length (targets (fst pass)) = List.length (predictions (fst pass)) ->
  Forall2 (fun m v => metric_call m (targets (fst pass)) (predictions (fst pass)) = Ok v)
          (firstn (List.length nms) ms) vals ->
  Loops.evaluate data loss_f {| tracker := {| self := t; sinks := s |}; framework := st |}
  = (Ok (avg, predictions (fst pass)),
     {| tracker :=
          {| self := set_epoch (epoch t + 1)
                       (set_losses [] (set_update (update_after t (List.length ls)) t));
             sinks := s ++ batch_events t (update t) ls
                        ++ flat_map (fun lg =>
                             map (fun nv => mk_event lg (Str (prefixed (pre_tag t) (fst nv)))
                                                     (snd nv) (epoch t))
                                 (combine nms vals)) (loggers t)
                        ++ fan_out (loggers t) (Str (prefixed (pre_tag t) "avg_loss"))
                                   avg (epoch t) |};
        framework := snd pass |}).
Proof.
  intros pass ls avg Hdev Hm Hms Hn Hnms Hlen Hvals. unfold Loops.evaluate.
  unfold bind at 1, on_torch at 1. cbn [tracker framework].
  rewrite (bind_ok _ _ _ _ _ (_forward_device_some _ _ _ Hdev)).
  rewrite (bind_ok _ _ _ _ _ (evaluate_loop loss_f dev data [] [] _ _)).
  fold pass. cbn [fst snd app]. fold ls. rewrite track_losses_run. cbn [snd].
  set (t1 := set_losses (losses t ++ ls) _).
  assert (Hcm : compute_metrics (targets (fst pass)) (predictions (fst pass))
                  {| self := t1; sinks := s ++ batch_events t (update t) ls |}
                = (Ok tt, {| self := t1;
                             sinks := (s ++ batch_events t (update t) ls)
                                      ++ flat_map (scalars_to t1
                                           (combine (map (fun n => Str (prefixed (pre_tag t1) n)) nms)
                                                    vals)) (loggers t1) |})).
  { apply compute_metrics_emit.
    - change (metrics t1) with (metrics t). rewrite Hm. now destruct ms.
    - exact Hlen.
    - unfold names_of. change (metrics_names t1) with (metrics_names t).
      change (metrics t1) with (metrics t). rewrite Hm, Hn.
      destruct nms; [congruence|]. cbn [truthy the]. now apply yields_named. }
  rewrite (bind_ok _ _ _ tt _ (on_tracker_run _ _ _ _ _ Hcm)).
  rewrite (bind_ok _ _ _ _ _ (on_tracker_run _ _ _ _ _ (summarise_run _ _))).
  unfold ret, update_after. subst t1.
  cbn [losses epoch loggers pre_tag set_losses set_update].
  fold avg. rewrite <- !app_assoc.
  rewrite (flat_map_ext _ _ (fun lg =>
             scalars_to_named _ lg (fun n => Str (prefixed (pre_tag t) n)) nms vals)).
  reflexivity.
Qed.

(** X16: [evaluate] of a network with a parameter, with metrics configured,
    when the targets and the predictions of the pass differ in number: the
    assertion of [compute_metrics] ends [evaluate] before [summarise]. The
    losses of the pass stay in the buffer and [epoch] has not moved, so the
    next [summarise] takes them together with the losses of the next pass. *)
Theorem evaluate_length_mismatch (data : list (inputs * tensor))
    (loss_f : tensor -> tensor -> scalar) (t : Tracker) (s : list event)
    (st : torch) (dev : device) :
  let pass := forward_pass loss_f dev data (network_eval st) in
  let ls := batch_losses (fst pass) in
  parameters_device (network_eval st) = Some dev ->
  truthy (metrics t) = true ->
  List.length (targets (fst pass)) <> List.length (predictions (fst pass)) ->
  Loops.evaluate data loss_f {| tracker := {| self := t; sinks := s |}; framework := st |}
  = (Raise (AssertionError length_msg),
     {| tracker :=
          {| self := set_losses (losses t ++ ls)
                       (set_update (update_after t (List.length ls)) t);
             sinks := s ++ batch_events t (update t) ls |};
        framework := snd pass |}).
Proof.
  intros pass ls Hdev Hm Hlen. unfold Loops.evaluate.
  unfold bind at 1, on_torch at 1. cbn [tracker framework].
  rewrite (bind_ok _ _ _ _ _ (_forward_device_some _ _ _ Hdev)).
  rewrite (bind_ok _ _ _ _ _ (evaluate_loop loss_f dev data [] [] _ _)).
  fold pass. cbn [fst snd app]. fold ls. rewrite track_losses_run. cbn [snd].
  set (t1 := set_losses (losses t ++ ls) _).
  apply bind_raise. apply on_tracker_run.
  now apply (compute_metrics_assert _ _ t1).
Qed.

(** The loop of [update]. *)
Lemma update_loop (loss_f : tensor -> tensor -> scalar) (dev : device) :
  forall (data : list (inputs * tensor)) (w : world) (st : torch),
    for_each data (fun xy =>
        '(_, _, _, loss) <- _forward loss_f dev xy ;;
        on_torch (backward loss) ;;
        on_torch opt_step ;;
        on_tracker (track_loss (item loss)) ;;
        on_torch zero_grad)
      {| tracker := w; framework := st |}
    = (Ok tt,
       {| tracker := snd (track_losses (map item (fst (train_pass loss_f dev data st))) w);
          framework := snd (train_pass loss_f dev data st) |}).
Proof.
  induction data as [|[x y] rest IH]; intros w st; cbn [for_each train_pass].
  - reflexivity.
  - cbn [fst snd]. unfold bind at 1. unfold bind at 1.
    unfold _forward at 1. cbn [fst snd tracker framework].
    destruct (network (inputs_to x dev) st) as [out st1].
    unfold bind at 1, on_torch at 1. cbn [tracker framework].
    unfold bind at 1, on_torch at 1. cbn [tracker framework].
    rewrite (bind_ok _ _ _ tt
               {| tracker := snd (track_loss (item (loss_f out (tensor_to y dev))) w);
                  framework := opt_step (backward (loss_f out (tensor_to y dev)) st1) |})
      by (apply on_tracker_run, track_loss_ok).
    unfold on_torch at 1. cbn [tracker framework]. rewrite IH.
    destruct (train_pass loss_f dev rest _) as [more st2].
    cbn [fst snd map]. now rewrite track_losses_cons.
Qed.

Lemma train_pass_zeroed (loss_f : tensor -> tensor -> scalar) (dev : device) :
  forall (data : list (inputs * tensor)) (st : torch),
    exists st', snd (train_pass loss_f dev data (zero_grad st)) = zero_grad st'.
Proof.
  induction data as [|[x y] rest IH]; intros st; cbn [train_pass].
  - now exists st.
  - cbn [fst snd]. destruct (network (inputs_to x dev) (zero_grad st)) as [out st1].
    destruct (IH (opt_step (backward (loss_f out (tensor_to y dev)) st1))) as [st' E].
    destruct (train_pass loss_f dev rest _) as [more st2]. now exists st'.
Qed.

(** X17: [update] of a network with a parameter returns [np.mean] of the
    buffer with the losses of the pass added to it, each computed by the
    network as the steps before it have left it; the sinks receive the "loss"
    scalars of the cadence and then "avg_loss" at the step [epoch], and no
    metric; [epoch] advances by 1 and the buffer is empty. The last operation
    on the library is [zero_grad], also when there is no batch. *)
Theorem update_returns_mean (data : list (inputs * tensor))
    (loss_f : tensor -> tensor -> scalar) (t : Tracker) (s : list event)
    (st : torch) (dev : device) :
  parameters_device (zero_grad (network_train st)) = Some dev ->
  let pass := train_pass loss_f dev data (zero_grad (network_train st)) in
  let ls := map item (fst pass) in
  let avg := np_mean (losses t ++ ls) in
  Loops.update data loss_f {| tracker := {| self := t; sinks := s |}; framework := st |}
  = (Ok avg,
     {| tracker :=
          {| self := set_epoch (epoch t + 1)
                       (set_losses [] (set_update (update_after t (List.length ls)) t));
             sinks := s ++ batch_events t (update t) ls
                        ++ fan_out (loggers t) (Str (prefixed (pre_tag t) "avg_loss"))
                                   avg (epoch t) |};
        framework := snd pass |})
  /\ exists st', snd pass = zero_grad st'.
Proof.
  intros Hdev pass ls avg. split; [|apply train_pass_zeroed].
  unfold Loops.update.
  unfold bind at 1, on_torch at 1. cbn [tracker framework].
  unfold bind at 1, on_torch at 1. cbn [tracker framework].
  rewrite (bind_ok _ _ _ _ _ (_forward_device_some _ _ _ Hdev)).
  rewrite (bind_ok _ _ _ _ _ (update_loop loss_f dev data _ _)).
  fold pass. fold ls. rewrite track_losses_run. cbn [snd].
  rewrite (on_tracker_run _ _ _ _ _ (summarise_run _ _)).
  unfold update_after. cbn [losses epoch loggers pre_tag set_losses set_update].
  fold avg. now rewrite <- app_assoc.
Qed.

(** X18: On a network without parameters both loops end with the
    [RuntimeError] of the generator before the first batch, also when there is
    no batch: the tracker and its sinks are untouched, [evaluate] has only put
    the network in evaluation mode, and [update] has only put it in training
    mode and zeroed the gradients. *)
Theorem loops_without_parameters (data : list (inputs * tensor))
    (loss_f : tensor -> tensor -> scalar) (w : world) (st : torch) :
  (parameters_device (network_eval st) = None ->
   Loops.evaluate data loss_f {| tracker := w; framework := st |}
   = (Raise (RuntimeError stop_msg),
      {| tracker := w; framework := network_eval st |}))
  /\ (parameters_device (zero_grad (network_train st)) = None ->
      Loops.update data loss_f {| tracker := w; framework := st |}
      = (Raise (RuntimeError stop_msg),
         {| tracker := w; framework := zero_grad (network_train st) |})).
Proof.
  split; intros Hdev.
  - unfold Loops.evaluate.
    unfold bind at 1, on_torch at 1. cbn [tracker framework].
    apply bind_raise. now apply _forward_device_none.
  - unfold Loops.update.
    unfold bind at 1, on_torch at 1. cbn [tracker framework].
    unfold bind at 1, on_torch at 1. cbn [tracker framework].
    apply bind_raise. now apply _forward_device_none.
Qed.

End LoopProofs.


(** ** The exact instance computes the arithmetic mean *)

Lemma total_nums (qs : list Q) :
  Exact.total (map Exact.Num qs) = Some (fold_right Qplus 0%Q qs).
Proof.
  induction qs as [|q qs IH]; cbn [map Exact.total fold_right]; [reflexivity|].
  now rewrite IH.
Qed.

Lemma exact_mean_arithmetic (qs : list Q) (q : Q) :
  qs <> [] ->
  Exact.mean (map Exact.Num qs) = Exact.Num q ->
  (q * inject_Z (Z.of_nat (List.length qs)) == fold_right Qplus 0 qs)%Q.
Proof.
  intros Hne. unfold Exact.mean. rewrite length_map.
  destruct qs as [|q0 qs]; [congruence|]. cbn [map].
  change (Exact.Num q0 :: map Exact.Num qs) with (map Exact.Num (q0 :: qs)).
  rewrite total_nums. intros E.
  apply (f_equal (fun x => match x with Exact.Num r => r | Exact.NaN => q end)) in E.
  cbv beta iota in E. subst q. rewrite Qred_correct.
  rewrite Qmult_comm. apply Qmult_div_r.
  unfold Qeq, inject_Z. cbn [Qnum Qden List.length]. lia.
Qed.

(** ** Runs on the exact instance *)

Import Exact.

(** Five losses tracked by [running] ([log_every = 2], [epoch = 1],
    [update = 0]): the 2nd and the 4th reach the two loggers, at steps 2 and
    4. *)
Lemma track_loss_cadence_witness :
  0 <= update running /\ log_every running = 2 /\ 0 < epoch running
  /\ update running = 0
  /\ sinks (snd (track_losses [Num 10; Num 20; Num 30; Num 40; Num 50]
                              {| self := running; sinks := [] |}))
     = [mk_event 0%nat (Str "train.loss") (Num 20) 2;
        mk_event 1%nat (Str "train.loss") (Num 20) 2;
        mk_event 0%nat (Str "train.loss") (Num 40) 4;
        mk_event 1%nat (Str "train.loss") (Num 40) 4].
Proof.
  assert (Hu : 0 <= update running) by (cbn; lia).
  assert (He : 0 < epoch running) by (cbn; lia).
  split; [exact Hu|]. split; [reflexivity|]. split; [exact He|].
  split; [reflexivity|].
  exact (proj2 (proj2 (proj2 (proj2 (proj2 (proj2
           (track_loss_cadence (NP := numpy) (Num 0) (Num 10) (Num 20) (Num 30) (Num 40) (Num 50)
                               running [] Hu))))))
         eq_refl He eq_refl).
Defined.

(** [summarise] on the fresh tracker [idle], whose buffer is empty, returns
    [NaN] where the claim has it fail. *)
Lemma summarise_empty_cex :
  losses idle = []
  /\ summarise {| self := idle; sinks := [] |}
     = (Ok NaN,
        {| self := set_epoch 1 idle;
           sinks := [mk_event 0%nat (Str "avg_loss") NaN 0;
                     mk_event 1%nat (Str "avg_loss") NaN 0] |})
  /\ ~ exists e, fst (summarise {| self := idle; sinks := [] |}) = Raise e.
Proof.
  split; [reflexivity|]. split; [reflexivity|].
  intros [e He]. discriminate He.
Qed.

Lemma summarise_empty_nan_witness :
  losses idle = []
  /\ fst (summarise {| self := idle; sinks := [] |}) = Ok NaN
  /\ epoch (self (snd (summarise {| self := idle; sinks := [] |}))) = 1.
Proof.
  split; [reflexivity|].
  rewrite (proj1 (summarise_empty_nan idle [] eq_refl)).
  split; reflexivity.
Defined.

(** Ground truth of length 3 against predictions of length 2. *)
Lemma compute_metrics_length_mismatch_witness :
  truthy (metrics running) = true
  /\ List.length [Num 1; Num 0; Num 1] <> List.length [Num 1; Num 0]
  /\ compute_metrics [Num 1; Num 0; Num 1] [Num 1; Num 0]
                     {| self := running; sinks := [] |}
     = (Raise (AssertionError length_msg), {| self := running; sinks := [] |}).
Proof.
  split; [reflexivity|]. split; [discriminate|].
  apply (compute_metrics_length_mismatch (NP := numpy)
           [Num 1; Num 0; Num 1] [Num 1; Num 0] running []);
    [reflexivity|discriminate].
Defined.

(** The tracker [stale] has [epoch = 0] and [update = 4] with
    [log_every = 2]: the loss is sent, at the step 4 that [update] keeps. *)
Lemma track_loss_epoch0_witness :
  epoch stale = 0
  /\ sinks (snd (track_loss (Num 7) {| self := stale; sinks := [] |}))
     = [mk_event 0%nat (Str "loss") (Num 7) 4]
  /\ update (self (snd (track_loss (Num 7) {| self := stale; sinks := [] |})))
     = update stale
  /\ (0 < log_every stale /\ update stale mod log_every stale = 0
      /\ update stale <> 0).
Proof.
  split; [reflexivity|]. split; [reflexivity|].
  destruct (proj1 (track_loss_epoch0 (NP := numpy) (Num 7) stale [] [] 1 None None "" [])
              eq_refl) as [Hupd Hemit].
  split; [exact Hupd|]. apply Hemit. discriminate.
Defined.

(** A loss tracked under [pre_tag = "train"] on its second update. *)
Lemma emitted_tags_prefixed_witness :
  let w := {| self := set_update 1 running; sinks := [] |} in
  let new := [mk_event 0%nat (Str "train.loss") (Num 5) 2;
              mk_event 1%nat (Str "train.loss") (Num 5) 2] in
  pre_tag (self w) = "train"
  /\ sinks (step (TrackLoss (Num 5)) w) = sinks w ++ new
  /\ Forall (fun e => ev_tag e = Str "train.loss") new.
Proof.
  intros w new. split; [reflexivity|]. split; [reflexivity|].
  exact (proj2 (emitted_tags_prefixed (NP := numpy) (TrackLoss (Num 5)) w)
               (Num 5) new eq_refl eq_refl).
Defined.

(** No metric, and lists of lengths 3 and 2: a silent return. *)
Lemma compute_metrics_no_metrics_witness :
  (metrics idle = None \/ metrics idle = Some [])
  /\ compute_metrics [Num 1; Num 0; Num 1] [Num 1; Num 0]
                     {| self := idle; sinks := [] |}
     = (Ok tt, {| self := idle; sinks := [] |}).
Proof.
  split; [now left|].
  apply (compute_metrics_no_metrics (NP := numpy) _ _ idle []). now left.
Defined.

(** C6 at the input where the code departs from it: the metric [same] stands
    in for its name and [pre_tag] is "train". [_pre] raises [TypeError] on the
    first pair, and no value reaches the logger. *)
Theorem compute_metrics_object_name_prefix :
  compute_metrics [Num 1; Num 0] [Num 1; Num 0]
                  {| self := unnamed "train"; sinks := [] |}
  = (Raise TypeError, {| self := unnamed "train"; sinks := [] |}).
Proof. reflexivity. Qed.

(** The same call under an empty [pre_tag]: the value 1 is sent, tagged with
    the metric itself. *)
Lemma compute_metrics_object_name_plain :
  compute_metrics [Num 1; Num 0] [Num 1; Num 0]
                  {| self := unnamed ""; sinks := [] |}
  = (Ok tt, {| self := unnamed "";
               sinks := [mk_event 0%nat (Obj same) (Num 1) 0] |}).
Proof. reflexivity. Qed.

(** [metrics_names = []] is given and shorter than the one metric, yet the
    pair is not skipped: the value is sent, under the metric as its name. *)
Lemma compute_metrics_empty_names_cex :
  metrics empty_names = Some [same]
  /\ metrics_names empty_names = Some []
  /\ (List.length (the (metrics_names empty_names))
      < List.length (the (metrics empty_names)))%nat
  /\ sinks (snd (compute_metrics [Num 1; Num 0] [Num 1; Num 0]
                                 {| self := empty_names; sinks := [] |}))
     = [mk_event 0%nat (Obj same) (Num 1) 0].
Proof. repeat split. cbn. lia. Qed.

(** [running] has the metrics [same] and [broken] and the one name "same":
    only [same] is called, and the call returns. *)
Lemma compute_metrics_names_cut_witness :
  metrics running = Some [same; broken] /\ [same; broken] <> []
  /\ metrics_names running = Some ["same"] /\ ["same"] <> []
  /\ compute_metrics [Num 1; Num 0] [Num 1; Num 0]
                     {| self := running; sinks := [] |}
     = (Ok tt, {| self := running;
                  sinks := [mk_event 0%nat (Str "train.same") (Num 1) 1;
                            mk_event 1%nat (Str "train.same") (Num 1) 1] |}).
Proof.
  split; [reflexivity|]. split; [discriminate|].
  split; [reflexivity|]. split; [discriminate|].
  apply (proj1 (compute_metrics_names_cut (NP := numpy)
                  [Num 1; Num 0] [Num 1; Num 0] running []
                  [same; broken] ["same"] [Num 1]
                  eq_refl ltac:(discriminate) eq_refl ltac:(discriminate) eq_refl
                  ltac:(repeat constructor))).
Defined.

(** ** Runs of sequences of calls and of the loops *)

Import Toy.

Lemma run_calls_configured_loggers_witness :
  loggers mute = []
  /\ sinks (run two_epochs {| self := mute; sinks := [] |}) = [].
Proof.
  split; [reflexivity|].
  exact (proj2 (run_calls_configured_loggers (NP := numpy) two_epochs
                  {| self := mute; sinks := [] |}) eq_refl).
Defined.

Lemma update_counts_track_loss_witness :
  0 < epoch running
  /\ update (self (run two_epochs {| self := running; sinks := [] |})) = 3.
Proof.
  assert (He : 0 < epoch running) by (cbn; lia).
  split; [exact He|].
  exact (update_counts_track_loss (NP := numpy) two_epochs
           {| self := running; sinks := [] |} He).
Defined.

Lemma buffer_since_summarise_witness :
  forallb (fun o => negb (is_summarise o)) [TrackLoss (Num 3)] = true
  /\ losses (self (run two_epochs {| self := idle; sinks := [] |})) = [Num 3].
Proof.
  split; [reflexivity|].
  exact (buffer_since_summarise (NP := numpy)
           [TrackLoss (Num 1); ComputeMetrics [] []; Summarise; TrackLoss (Num 2)]
           [TrackLoss (Num 3)] {| self := idle; sinks := [] |} eq_refl).
Defined.

(** Seven losses tracked from [update = 3] with [log_every = 2]: [update]
    passes 4, 6, 8 and 10 on the 1st, 3rd, 5th and 7th call, and each of the
    two loggers is called at these four steps. *)
Lemma track_losses_cadence_count_witness :
  let t := set_update 3 running in
  let out := track_losses [Num 1; Num 2; Num 3; Num 4; Num 5; Num 6; Num 7]
                          {| self := t; sinks := [] |} in
  0 < epoch t /\ 0 < log_every t /\ 0 <= update t
  /\ map (fun e => (ev_logger e, ev_value e, ev_step e)) (sinks (snd out))
     = [(0%nat, Num 1, 4); (1%nat, Num 1, 4); (0%nat, Num 3, 6); (1%nat, Num 3, 6);
        (0%nat, Num 5, 8); (1%nat, Num 5, 8); (0%nat, Num 7, 10); (1%nat, Num 7, 10)]
  /\ Z.of_nat (List.length (filter (fun e => Nat.eqb (ev_logger e) 1)
                                   (sinks (snd out)))) = 4.
Proof.
  intros t out.
  assert (He : 0 < epoch t) by (cbn; lia).
  assert (Hk : 0 < log_every t) by (cbn; lia).
  assert (Hu : 0 <= update t) by (cbn; lia).
  split; [exact He|]. split; [exact Hk|]. split; [exact Hu|].
  pose proof (track_losses_cadence_count (NP := numpy)
                [Num 1; Num 2; Num 3; Num 4; Num 5; Num 6; Num 7] t [] He Hk Hu)
    as H.
  cbv zeta in H. destruct H as [E Hcount].
  subst out. rewrite E. cbn [snd sinks app]. split; [reflexivity|].
  rewrite (Hcount 1%nat). reflexivity.
Defined.

Lemma track_losses_disabled_witness :
  log_every quiet <= 0
  /\ sinks (snd (track_losses [Num 1; Num 2; Num 3] {| self := quiet; sinks := [] |})) = []
  /\ losses (self (snd (track_losses [Num 1; Num 2; Num 3]
                                     {| self := quiet; sinks := [] |})))
     = [Num 1; Num 2; Num 3].
Proof.
  assert (Hk : log_every quiet <= 0) by (cbn; lia).
  split; [exact Hk|].
  exact (proj2 (track_losses_disabled (NP := numpy) [Num 1; Num 2; Num 3]
                  quiet [] Hk)).
Defined.

Lemma baseline_epoch_silent_witness :
  let w := step (ComputeMetrics [] [])
                (step (TrackLoss (Num 1)) {| self := idle; sinks := [] |}) in
  reachable w /\ epoch (self w) = 0
  /\ sinks (snd (track_losses [Num 2; Num 3] w)) = sinks w.
Proof.
  intros w.
  assert (Hr : reachable w).
  { apply reach_step, reach_step.
    exact (reach_init [0; 1]%nat 1 None None "" []). }
  split; [exact Hr|]. split; [reflexivity|].
  exact (baseline_epoch_silent (NP := numpy) [Num 2; Num 3] w Hr eq_refl).
Defined.

Lemma compute_metrics_no_loggers_witness :
  loggers mute = [] /\ List.length [Num 1] = List.length [Num 1]
  /\ compute_metrics [Num 1] [Num 1] {| self := mute; sinks := [] |}
     = (Ok tt, {| self := mute; sinks := [] |}).
Proof.
  split; [reflexivity|]. split; [reflexivity|].
  exact (compute_metrics_no_loggers (NP := numpy) [Num 1] [Num 1] mute []
           eq_refl eq_refl).
Defined.

Lemma compute_metrics_object_names_witness :
  metrics (unnamed "") = Some [same] /\ truthy (metrics_names (unnamed "")) = false
  /\ pre_tag (unnamed "") = ""
  /\ compute_metrics [Num 1; Num 0] [Num 1; Num 0]
                     {| self := unnamed ""; sinks := [] |}
     = (Ok tt, {| self := unnamed "";
                  sinks := [mk_event 0%nat (Obj same) (Num 1) 0] |}).
Proof.
  split; [reflexivity|]. split; [reflexivity|]. split; [reflexivity|].
  exact (compute_metrics_object_names (NP := numpy) [Num 1; Num 0] [Num 1; Num 0]
           (unnamed "") [] [same] [Num 1]
           eq_refl ltac:(discriminate) eq_refl eq_refl eq_refl
           ltac:(repeat constructor)).
Defined.

(** The second of three metrics raises: the first logger has the scalar of
    the first metric, the second logger nothing. *)
Lemma compute_metrics_metric_raises_witness :
  metrics faulty = Some ([same] ++ broken :: [same])
  /\ metric_call broken [Num 1] [Num 1] = Raise (Exception 0)
  /\ loggers faulty = [0; 1]%nat
  /\ compute_metrics [Num 1] [Num 1] {| self := faulty; sinks := [] |}
     = (Raise (Exception 0),
        {| self := faulty; sinks := [mk_event 0%nat (Str "a") (Num 1) 0] |}).
Proof.
  split; [reflexivity|]. split; [reflexivity|]. split; [reflexivity|].
  exact (compute_metrics_metric_raises (NP := numpy) [Num 1] [Num 1] faulty []
           [same] [same] broken ["a"; "b"; "c"] [Num 1] (Exception 0) 0%nat [1%nat]
           eq_refl eq_refl ltac:(cbn; lia) eq_refl ltac:(repeat constructor)
           eq_refl eq_refl).
Defined.

(** [evaluate] on the fresh tracker [idle]: [np.mean] of the losses 4 and
    8, and one prediction for each of the three targets. *)
Lemma evaluate_no_metrics_witness :
  parameters_device (network_eval (true, [])) = Some tt
  /\ truthy (metrics idle) = false
  /\ fst (Loops.evaluate two_batches first_output
             {| tracker := {| self := idle; sinks := [] |}; framework := (true, []) |})
     = Ok (Num 6, [Num (1 # 2); Num (1 # 2); Num (1 # 2)]).
Proof.
  split; [reflexivity|]. split; [reflexivity|].
  exact (f_equal fst (evaluate_no_metrics (TH := calls) two_batches first_output
                        idle [] (true, []) tt eq_refl eq_refl)).
Defined.

Lemma evaluate_metrics_witness :
  parameters_device (network_eval (true, [])) = Some tt
  /\ metrics running = Some [same; broken] /\ metrics_names running = Some ["same"]
  /\ sinks (tracker (snd (Loops.evaluate two_batches first_output
        {| tracker := {| self := running; sinks := [] |}; framework := (true, []) |})))
     = [mk_event 0%nat (Str "train.loss") (Num 8) 2;
        mk_event 1%nat (Str "train.loss") (Num 8) 2;
        mk_event 0%nat (Str "train.same") (Num 0) 1;
        mk_event 1%nat (Str "train.same") (Num 0) 1;
        mk_event 0%nat (Str "train.avg_loss") (Num (21 # 5)) 1;
        mk_event 1%nat (Str "train.avg_loss") (Num (21 # 5)) 1].
Proof.
  split; [reflexivity|]. split; [reflexivity|]. split; [reflexivity|].
  exact (f_equal (fun r => sinks (tracker (snd r)))
           (evaluate_metrics (TH := calls) two_batches first_output running []
              (true, []) tt [same; broken] ["same"] [Num 0]
              eq_refl eq_refl ltac:(discriminate) eq_refl ltac:(discriminate) eq_refl
              ltac:(repeat constructor))).
Defined.

(** Two outputs for one target: [evaluate] raises, and the loss 4 of the
    pass stays in the buffer behind 1, 2 and 6, in the same epoch. *)
Lemma evaluate_length_mismatch_witness :
  parameters_device (network_eval (true, [])) = Some tt
  /\ truthy (metrics running) = true
  /\ fst (Loops.evaluate uneven first_output
             {| tracker := {| self := running; sinks := [] |}; framework := (true, []) |})
     = Raise (AssertionError length_msg)
  /\ losses (self (tracker (snd (Loops.evaluate uneven first_output
        {| tracker := {| self := running; sinks := [] |}; framework := (true, []) |}))))
     = [Num 1; Num 2; Num 6; Num 4].
Proof.
  split; [reflexivity|]. split; [reflexivity|].
  rewrite (evaluate_length_mismatch (TH := calls) uneven first_output running []
             (true, []) tt eq_refl eq_refl ltac:(discriminate)).
  split; reflexivity.
Defined.

(** [update] over two batches: the calls on the library, in order, and the
    value returned. *)
Lemma update_returns_mean_witness :
  parameters_device (zero_grad (network_train (true, []))) = Some tt
  /\ fst (Loops.update two_batches first_output
             {| tracker := {| self := idle; sinks := [] |}; framework := (true, []) |})
     = Ok (Num 6)
  /\ framework (snd (Loops.update two_batches first_output
        {| tracker := {| self := idle; sinks := [] |}; framework := (true, []) |}))
     = (true, ["train"; "zero_grad"; "network"; "backward"; "step"; "zero_grad";
               "network"; "backward"; "step"; "zero_grad"]).
Proof.
  split; [reflexivity|].
  rewrite (proj1 (update_returns_mean (TH := calls) two_batches first_output idle []
                    (true, []) tt eq_refl)).
  split; reflexivity.
Defined.

(** A network without parameters: both loops raise, on two batches and on
    none, and the tracker [running] keeps its buffer. *)
Lemma loops_without_parameters_witness :
  parameters_device (network_eval (false, [])) = None
  /\ parameters_device (zero_grad (network_train (false, []))) = None
  /\ Loops.evaluate two_batches first_output
       {| tracker := {| self := running; sinks := [] |}; framework := (false, []) |}
     = (Raise (RuntimeError stop_msg),
        {| tracker := {| self := running; sinks := [] |};
           framework := (false, ["eval"]) |})
  /\ Loops.update [] first_output
       {| tracker := {| self := running; sinks := [] |}; framework := (false, []) |}
     = (Raise (RuntimeError stop_msg),
        {| tracker := {| self := running; sinks := [] |};
           framework := (false, ["train"; "zero_grad"]) |}).
Proof.
  split; [reflexivity|]. split; [reflexivity|]. split.
  - exact (proj1 (loops_without_parameters (TH := calls) two_batches first_output
                    {| self := running; sinks := [] |} (false, [])) eq_refl).
  - exact (proj2 (loops_without_parameters (TH := calls) [] first_output
                    {| self := running; sinks := [] |} (false, [])) eq_refl).
Defined.

(** ** [summarise] on doubles: the mean that is returned *)


